(** * Mafqood mobile client: API client and match classifier

    A shallow embedding of the parts of the React Native client that carry
    behaviour: [api/client.ts] (URL normalisation, multipart bodies, the five
    REST calls), the report screen's [handleSubmit], [filteredMatches] and
    [convertToMatch], and the item card's high-match indicator; then the
    report screen's form check, progress row and success modal, the item
    card's match list, and the data reset of the settings screen.

    JavaScript numbers are IEEE-754 binary64 values, taken from the
    standard library's executable specification [SpecFloat]; strings are
    sequences of code units; an [async] function is a tree of [fetch]
    requests ending in the settled value of its promise. *)

From Stdlib Require Import ZArith QArith Qround Qpower List Bool String Ascii Lia.
From Stdlib Require Import DecimalString SpecFloat.
Import ListNotations.

Set Implicit Arguments.

(** ** JavaScript numbers *)

Module JsNumber.

Definition prec : Z := 53.
Definition emax : Z := 1024.

Definition number : Type := spec_float.

(** A [spec_float] denotes a Number when its mantissa and exponent are the
    canonical binary64 ones. *)
Definition is_number (x : number) : bool := valid_binary prec emax x.

Definition mul (x y : number) : number := SFmul prec emax x y.
Definition div (x y : number) : number := SFdiv prec emax x y.

(** The Number of an integer literal. *)
Definition of_Z (n : Z) : number := binary_normalize prec emax n 0 false.

(** The Number of a decimal literal [d / 10^k], correctly rounded. *)
Definition decimal (d : Z) (k : Z) : number := div (of_Z d) (of_Z (10 ^ k)).

(** [x >= y]: false when either side is NaN. *)
Definition ge (x y : number) : bool :=
  match SFcompare x y with
  | Some Lt => false
  | None => false
  | Some _ => true
  end.

Definition le (x y : number) : bool := SFleb x y.

(** [x === y] on Numbers: false on NaN, true on the two zeros. *)
Definition strict_equal (x y : number) : bool := SFeqb x y.

Definition isNaN (x : number) : bool :=
  match x with S754_nan => true | _ => false end.

Definition isFinite (x : number) : bool :=
  match x with S754_zero _ | S754_finite _ _ _ => true | _ => false end.

(** The rational a finite Number stands for (0 for the others). *)
Definition to_Q (x : number) : Q :=
  match x with
  | S754_finite s m e => inject_Z (cond_Zopp s (Zpos m)) * (2 ^ e)
  | _ => 0
  end.

(** [Math.round]: NaN, the infinities and the zeros are returned as they
    are; a finite [±m·2^e] becomes the integer [floor (±m·2^e + 1/2)],
    computed on the mantissa, and a zero result keeps the sign of the
    argument. *)
Definition round_to_Z (s : bool) (m : positive) (e : Z) : Z :=
  if (0 <=? e)%Z then (cond_Zopp s (Zpos m) * 2 ^ e)%Z
  else Z.shiftr (2 * cond_Zopp s (Zpos m) + 2 ^ (- e)) (1 - e).

Definition Math_round (x : number) : number :=
  match x with
  | S754_finite s m e => binary_normalize prec emax (round_to_Z s m e) 0 s
  | _ => x
  end.

(** The mantissas of the literals [1], [100] and [1.01]. *)
Definition one_mantissa : positive := 4503599627370496.
Definition hundred_mantissa : positive := 7036874417766400.
Definition mantissa_1_01 : positive := 4548635623644201.

(** A similarity as the data model has it: a Number in [0, 1]. *)
Definition in_unit (s : number) : bool := ge s (of_Z 0) && le s (of_Z 1).

End JsNumber.

(** ** Built-in array and string operations *)

Module JsArray.

(** [Array.prototype.filter]: walks the array from index 0 and appends
    each element the callback accepts to a new array. *)
Definition filter {A : Type} (callback : A -> bool) (O : list A) : list A :=
  fold_left (fun acc kValue => if callback kValue then acc ++ [kValue] else acc) O [].

(** [Array.prototype.some]: stops at the first accepted element. *)
Fixpoint some {A : Type} (callback : A -> bool) (O : list A) : bool :=
  match O with
  | [] => false
  | kValue :: rest => if callback kValue then true else some callback rest
  end.

(** [O.slice(0, n)]: the first [n] elements, or all of them when there
    are fewer. *)
Definition slice_0 {A : Type} (n : nat) (O : list A) : list A := firstn n O.

(** [l'] is [l] with some elements left out, the others in the same order. *)
Inductive subsequence {A : Type} : list A -> list A -> Prop :=
| subseq_nil : subsequence [] []
| subseq_skip : forall x l' l, subsequence l' l -> subsequence l' (x :: l)
| subseq_take : forall x l' l, subsequence l' l -> subsequence (x :: l') (x :: l).

End JsArray.

Module JsString.

Local Open Scope string_scope.

Definition backslash : ascii := "092"%char.
Definition slash : ascii := "047"%char.

(** [s.replace(/c/g, d)] for single characters [c] and [d]. *)
Fixpoint replace_all (c d : ascii) (s : string) : string :=
  match s with
  | EmptyString => EmptyString
  | String a rest => String (if Ascii.eqb a c then d else a) (replace_all c d rest)
  end.

Definition startsWith (s search : string) : bool := String.prefix search s.

(** Truthiness of a string, and of a possibly undefined string. *)
Definition truthy (s : string) : bool := negb (String.eqb s "").

Definition truthy_opt (s : option string) : bool :=
  match s with Some v => truthy v | None => false end.

(** [a || b] on strings. *)
Definition or_else (a b : string) : string := if truthy a then a else b.

(** [a || undefined]. *)
Definition or_undefined (a : string) : option string :=
  if truthy a then Some a else None.

(** [a || b] where [a] may be undefined. *)
Definition opt_or_else (a : option string) (b : string) : string :=
  match a with
  | Some v => or_else v b
  | None => b
  end.

(** [a || undefined] where [a] may be undefined. *)
Definition opt_or_undefined (a : option string) : option string :=
  match a with
  | Some v => or_undefined v
  | None => None
  end.

(** Integers in template literals and [toString()]: the decimal digits,
    as JavaScript prints every integer below 10^21 in absolute value
    (from there on it prints an exponent, which is not modelled). *)
Definition of_N (n : N) : string := NilZero.string_of_uint (N.to_uint n).
Definition of_Z (n : Z) : string := NilZero.string_of_int (Z.to_int n).

Definition includes (s part : string) : Prop :=
  exists before after, s = before ++ part ++ after.

End JsString.

(** ** Data model ([types/itemTypes]) *)

Module ItemTypes.

Import JsNumber.

Record ImageFile : Type := { uri : string; name : string; type : string }.

Record SubmitItemPayload : Type := {
  file : ImageFile;
  title : string;
  description : option string;
  locationType : string;
  locationDetail : option string;
  timeFrame : string
}.

(** An item as the backend returns it. *)
Record RemoteItem : Type := {
  id : Z;
  image_url : string;
  location_type : string;
  location_detail : option string;
  time_frame : string;
  item_description : option string;
  item_title : option string;
  created_at : string
}.

Record MatchResult : Type := { item : RemoteItem; similarity : number }.

Inductive ItemType : Type := lost | found.
Inductive MatchStatus : Type := high | possible.
Inductive Date : Type := new_Date (iso : string).

(** The display model. *)
Record Item : Type := {
  item_id : string;
  item_type : ItemType;
  imageUrl : string;
  where_ : string;
  specificPlace : option string;
  when_ : string;
  description_ : string;
  timestamp : Date
}.

Record Match : Type := {
  match_id : string;
  match_item : Item;
  match_similarity : number;
  status : MatchStatus
}.

(** The report form. *)
Record ItemFormData : Type := {
  form_image : option ImageFile;
  form_where : string;
  form_specificPlace : string;
  form_when : string;
  form_description : string
}.

End ItemTypes.

(** ** Promises and [fetch] *)

Module Async.

Import ItemTypes.
Local Open Scope string_scope.

(** A thrown value: an [Error] instance with its constructor name and
    message, or anything else. *)
Inductive thrown : Type :=
| ErrorObject (constructor_name : string) (message : string)
| NotAnError.

Definition new_Error (message : string) : thrown := ErrorObject "Error" message.

(** [fetch] rejects with a [TypeError] when no response is received. *)
Definition is_TypeError (e : thrown) : bool :=
  match e with
  | ErrorObject n _ => String.eqb n "TypeError"
  | NotAnError => false
  end.

Inductive settled (A : Type) : Type :=
| Fulfilled (v : A)
| Rejected (e : thrown).
Arguments Rejected {A} e.

(** [p.catch(h)] *)
Definition promise_catch {A : Type} (p : settled A) (h : thrown -> A) : settled A :=
  match p with
  | Fulfilled v => Fulfilled v
  | Rejected e => Fulfilled (h e)
  end.

(** [const v = await p; k v] inside an async function. *)
Definition await {A B : Type} (p : settled A) (k : A -> settled B) : settled B :=
  match p with
  | Fulfilled v => k v
  | Rejected e => Rejected e
  end.

Inductive FormValue : Type :=
| FormString (s : string)
| FormFile (f : ImageFile).

(** A [FormData] is the list of its entries, in the order of [append]. *)
Definition FormData : Type := list (string * FormValue).

Definition append (formData : FormData) (key : string) (v : FormValue) : FormData :=
  (formData ++ [(key, v)])%list.

(** [formData.get(key)]: the first value appended under [key]. *)
Fixpoint get (formData : FormData) (key : string) : option FormValue :=
  match formData with
  | [] => None
  | (k, v) :: rest => if String.eqb k key then Some v else get rest key
  end.

Definition keys (formData : FormData) : list string := map fst formData.

Inductive Method : Type := GET | POST | DELETE.

Record Request : Type := {
  url : string;
  method : Method;
  body : option FormData;
  headers : list (string * string)
}.

Section Fetch.

(** What [response.json()] parses to. *)
Variable Json : Type.

Record Response : Type := {
  ok : bool;
  status : N;
  text : settled string;
  json : settled Json
}.

(** An async computation: it ends with a value or issues a request and
    goes on with what [fetch] settled to. *)
Inductive io (A : Type) : Type :=
| Ret (a : A)
| Fetch (req : Request) (k : settled Response -> io A).

Fixpoint bind {A B : Type} (p : io A) (f : A -> io B) : io B :=
  match p with
  | Ret a => f a
  | Fetch req k => Fetch req (fun r => bind (k r) f)
  end.

(** Running against a network: the requests issued, in order, and the
    result. *)
Fixpoint run {A : Type} (network : Request -> settled Response) (p : io A)
  : list Request * A :=
  match p with
  | Ret a => ([], a)
  | Fetch req k =>
      let '(log, a) := run network (k (network req)) in (req :: log, a)
  end.

End Fetch.

Arguments Ret {Json A} a.
Arguments Fetch {Json A} req k.

End Async.

(** ** The API client ([api/client.ts]) *)

Module Client.

Import ItemTypes Async JsString.
Local Open Scope string_scope.

Record EndpointMap : Type := {
  LOST : string; FOUND : string; HISTORY : string; RESET : string; HEALTH : string
}.

Section Config.

Variable API_BASE_URL : string.
Variable ENDPOINTS : EndpointMap.
Variable Json : Type.

Definition buildImageUrl (imageUrl : string) : string :=
  if negb (truthy imageUrl) then ""
  else
    let normalized := replace_all backslash slash imageUrl in
    if startsWith normalized "http://" || startsWith normalized "https://"
    then normalized
    else
      let path := if startsWith normalized "/" then normalized
                  else "/" ++ normalized in
      API_BASE_URL ++ path.

Definition buildFormData (payload : SubmitItemPayload) : FormData :=
  let formData : FormData := [] in
  let formData :=
    append formData "file"
      (FormFile {| uri := uri (file payload);
                   name := name (file payload);
                   type := type (file payload) |}) in
  let formData := append formData "title" (FormString (title payload)) in
  let formData :=
    match description payload with
    | Some d => if truthy d then append formData "description" (FormString d)
                else formData
    | None => formData
    end in
  let formData :=
    append formData "location_type" (FormString (locationType payload)) in
  let formData :=
    match locationDetail payload with
    | Some d => if truthy d then append formData "location_detail" (FormString d)
                else formData
    | None => formData
    end in
  let formData := append formData "time_frame" (FormString (timeFrame payload)) in
  formData.

Definition submitLostItem (payload : SubmitItemPayload) : io Json (settled Json) :=
  let formData := buildFormData payload in
  Fetch {| url := API_BASE_URL ++ LOST ENDPOINTS;
           method := POST;
           body := Some formData;
           headers := [("Content-Type", "multipart/form-data")] |}
    (fun r => Ret (await r (fun response =>
       if negb (ok response) then
         await (promise_catch (text response) (fun _ => "Unknown error"))
           (fun errorText =>
              Rejected (new_Error ("Failed to submit lost item: "
                                     ++ of_N (status response)
                                     ++ " - " ++ errorText)))
       else
         await (json response) (fun data => Fulfilled data)))).

Definition submitFoundItem (payload : SubmitItemPayload) : io Json (settled Json) :=
  let formData := buildFormData payload in
  Fetch {| url := API_BASE_URL ++ FOUND ENDPOINTS;
           method := POST;
           body := Some formData;
           headers := [("Content-Type", "multipart/form-data")] |}
    (fun r => Ret (await r (fun response =>
       if negb (ok response) then
         await (promise_catch (text response) (fun _ => "Unknown error"))
           (fun errorText =>
              Rejected (new_Error ("Failed to submit found item: "
                                     ++ of_N (status response)
                                     ++ " - " ++ errorText)))
       else
         await (json response) (fun data => Fulfilled data)))).

(** [fetch(url)] with no options is a GET without body or headers. *)
Definition fetchHistory : io Json (settled Json) :=
  Fetch {| url := API_BASE_URL ++ HISTORY ENDPOINTS;
           method := GET; body := None; headers := [] |}
    (fun r => Ret (await r (fun response =>
       if negb (ok response) then
         await (promise_catch (text response) (fun _ => "Unknown error"))
           (fun errorText =>
              Rejected (new_Error ("Failed to fetch history: "
                                     ++ of_N (status response)
                                     ++ " - " ++ errorText)))
       else
         await (json response) (fun data => Fulfilled data)))).

Definition resetDatabase : io Json (settled Json) :=
  Fetch {| url := API_BASE_URL ++ RESET ENDPOINTS;
           method := DELETE; body := None; headers := [] |}
    (fun r => Ret (await r (fun response =>
       if negb (ok response) then
         await (promise_catch (text response) (fun _ => "Unknown error"))
           (fun errorText =>
              Rejected (new_Error ("Failed to reset database: "
                                     ++ of_N (status response)
                                     ++ " - " ++ errorText)))
       else
         await (json response) (fun data => Fulfilled data)))).

Definition checkHealth : io Json (settled Json) :=
  Fetch {| url := API_BASE_URL ++ HEALTH ENDPOINTS;
           method := GET; body := None; headers := [] |}
        (fun r => Ret (await r (fun response =>
           if negb (ok response) then
             Rejected (new_Error "Backend is not reachable")
           else json response))).

End Config.

End Client.

(** ** The report screen ([screens/ReportItemScreen.tsx]) *)

Module ReportItemScreen.

Import JsNumber ItemTypes Async JsString.
Local Open Scope string_scope.

(** The screen's [useState] cells. *)
Record State : Type := {
  reportType : ItemType;
  formData : ItemFormData;
  matches : list MatchResult;
  isSubmitting : bool;
  showSuccessModal : bool;
  error : option string
}.

Definition setFormData (v : ItemFormData) (st : State) : State :=
  {| reportType := reportType st; formData := v; matches := matches st;
     isSubmitting := isSubmitting st; showSuccessModal := showSuccessModal st;
     error := error st |}.

Definition setMatches (v : list MatchResult) (st : State) : State :=
  {| reportType := reportType st; formData := formData st; matches := v;
     isSubmitting := isSubmitting st; showSuccessModal := showSuccessModal st;
     error := error st |}.

Definition setIsSubmitting (v : bool) (st : State) : State :=
  {| reportType := reportType st; formData := formData st; matches := matches st;
     isSubmitting := v; showSuccessModal := showSuccessModal st;
     error := error st |}.

Definition setShowSuccessModal (v : bool) (st : State) : State :=
  {| reportType := reportType st; formData := formData st; matches := matches st;
     isSubmitting := isSubmitting st; showSuccessModal := v;
     error := error st |}.

Definition setError (v : option string) (st : State) : State :=
  {| reportType := reportType st; formData := formData st; matches := matches st;
     isSubmitting := isSubmitting st; showSuccessModal := showSuccessModal st;
     error := v |}.

(** A call of one of the setters. *)
Inductive StateUpdate : Type :=
| call_setFormData (v : ItemFormData)
| call_setMatches (v : list MatchResult)
| call_setIsSubmitting (v : bool)
| call_setShowSuccessModal (v : bool)
| call_setError (v : option string).

Definition applyUpdate (st : State) (update : StateUpdate) : State :=
  match update with
  | call_setFormData v => setFormData v st
  | call_setMatches v => setMatches v st
  | call_setIsSubmitting v => setIsSubmitting v st
  | call_setShowSuccessModal v => setShowSuccessModal v st
  | call_setError v => setError v st
  end.

(** The state after a sequence of setter calls. *)
Definition applyUpdates (updates : list StateUpdate) (st : State) : State :=
  fold_left applyUpdate updates st.

Definition emptyForm : ItemFormData :=
  {| form_image := None; form_where := ""; form_specificPlace := "";
     form_when := ""; form_description := "" |}.

Definition isLost (st : State) : bool :=
  match reportType st with lost => true | found => false end.

Section Screen.

Variable API_BASE_URL : string.
Variable ENDPOINTS : Client.EndpointMap.
(** The parsed body of a submit response, and the read [response.matches]:
    it throws when the body has no properties (a [null] body). *)
Variable Json : Type.
Variable response_matches : Json -> settled (list MatchResult).
(** [api/config] *)
Variable MATCH_THRESHOLD : number.
Variable HIGH_MATCH_THRESHOLD : number.
(** The translation function of the language context. *)
Variable t : string -> string.

(** The payload object [handleSubmit] builds once the form is valid. *)
Definition submitPayload (st : State) (image : ImageFile) : SubmitItemPayload :=
  {| file := image;
     title := or_else (form_description (formData st))
                ((if isLost st then "Lost" else "Found")
                   ++ " item at " ++ form_where (formData st));
     description := or_undefined (form_description (formData st));
     locationType := form_where (formData st);
     locationDetail := or_undefined (form_specificPlace (formData st));
     timeFrame := form_when (formData st) |}.

(** The setter calls of [handleSubmit], in the order it makes them: the
    error of the first missing field; or, for a valid form, the two calls
    before the request, those of the [try] block when it gets through
    (the call is fulfilled and [response.matches] is read) or the one of
    [catch] when it throws, and the one of [finally]. *)
Definition handleSubmitUpdates (st : State) : io Json (list StateUpdate) :=
  match form_image (formData st) with
  | None => Ret [call_setError (Some (t "error_image_required"))]
  | Some image =>
    if negb (truthy (form_where (formData st))) then
      Ret [call_setError (Some (t "error_location_required"))]
    else if negb (truthy (form_when (formData st))) then
      Ret [call_setError (Some (t "error_time_required"))]
    else
      let payload := submitPayload st image in
      let submitFn :=
        if isLost st then Client.submitLostItem API_BASE_URL ENDPOINTS Json
        else Client.submitFoundItem API_BASE_URL ENDPOINTS Json in
      bind (submitFn payload) (fun outcome =>
        Ret ([call_setIsSubmitting true; call_setError None]
             ++ match await outcome (fun response => response_matches response) with
                | Fulfilled matches =>
                    [call_setMatches matches;
                     call_setShowSuccessModal true;
                     call_setFormData emptyForm]
                | Rejected err =>
                    [call_setError (Some match err with
                                         | ErrorObject _ message => message
                                         | NotAnError => t "error_generic"
                                         end)]
                end
             ++ [call_setIsSubmitting false])%list)
  end.

(** [handleSubmit]: the state the screen is left in. *)
Definition handleSubmit (st : State) : io Json State :=
  bind (handleSubmitUpdates st) (fun updates => Ret (applyUpdates updates st)).

Definition filteredMatches (st : State) : list MatchResult :=
  JsArray.filter (fun m => ge (similarity m) MATCH_THRESHOLD) (matches st).

Definition convertToMatch (st : State) (matchResult : MatchResult) : Match :=
  {| match_id := JsString.of_Z (id (item matchResult));
     match_item :=
       {| item_id := JsString.of_Z (id (item matchResult));
          item_type := if isLost st then found else lost;
          imageUrl := Client.buildImageUrl API_BASE_URL (image_url (item matchResult));
          where_ := or_else (location_type (item matchResult)) "Unknown";
          specificPlace := opt_or_undefined (location_detail (item matchResult));
          when_ := or_else (time_frame (item matchResult)) "Unknown";
          description_ :=
            opt_or_else (item_description (item matchResult))
              (opt_or_else (item_title (item matchResult)) (t "no_description"));
          timestamp := new_Date (created_at (item matchResult)) |};
     match_similarity := Math_round (mul (similarity matchResult) (JsNumber.of_Z 100));
     ItemTypes.status := if ge (similarity matchResult) HIGH_MATCH_THRESHOLD
               then high else possible |}.

(** [formData.image && formData.where && formData.when], as a condition. *)
Definition isFormValid (st : State) : bool :=
  match form_image (formData st) with
  | Some _ => truthy (form_where (formData st)) && truthy (form_when (formData st))
  | None => false
  end.

(** The number of completed steps. *)
Definition progress (st : State) : Z :=
  fold_left Z.add
    [ match form_image (formData st) with Some _ => 1 | None => 0 end;
      if truthy (form_where (formData st)) && truthy (form_when (formData st))
      then 1 else 0;
      0 ]%Z 0%Z.

(** The dot of step [index] is coloured when [index < progress], the line
    after it when [index < progress - 1]. *)
Definition progressDotActive (st : State) (index : Z) : bool :=
  (index <? progress st)%Z.

Definition progressLineActive (st : State) (index : Z) : bool :=
  (index <? progress st - 1)%Z.

(** The [disabled] property of the submit button. *)
Definition submitDisabled (st : State) : bool :=
  isSubmitting st || negb (isFormValid st).

(** The success modal gets [filteredMatches]; it announces matches when
    there is one and shows the first two as cards. *)
Definition modalAnnouncesMatches (st : State) : bool :=
  (0 <? List.length (filteredMatches st))%nat.

Definition modalCards (st : State) : list Match :=
  map (convertToMatch st) (JsArray.slice_0 2 (filteredMatches st)).

End Screen.

End ReportItemScreen.

(** ** The item card ([components/ItemCard.tsx]) *)

Module ItemCard.

Import JsNumber ItemTypes.

Definition hasHighMatch (matches : list Match) : bool :=
  JsArray.some (fun m => ge (match_similarity m) (JsNumber.of_Z 75)) matches.

(** The card lists the first three matches and offers [View all] when
    there are more. *)
Definition listedMatches (matches : list Match) : list Match :=
  JsArray.slice_0 3 matches.

Definition showsViewAll (matches : list Match) : bool :=
  (3 <? List.length matches)%nat.

(** The match-count badge: absent without matches, singular for one. *)
Definition matchCountBadge (t : string -> string) (matches : list Match)
  : option string :=
  if (0 <? List.length matches)%nat then
    Some (JsString.of_N (N.of_nat (List.length matches)) ++ " "
          ++ (if (List.length matches =? 1)%nat then t "matches_match_count"
              else t "matches_match_count_plural"))%string
  else None.

End ItemCard.

(** ** The settings screen ([screens/SettingsScreen.tsx]) *)

Module SettingsScreen.

Import Async Client.
Local Open Scope string_scope.

(** What the screen does besides calling the backend. *)
Inductive Effect : Type :=
| AsyncStorage_clear
| invalidateQueries
| Alert_alert (title message : string).

(** The button of an alert the user presses. *)
Inductive Choice : Type := cancel | confirm.

Section Settings.

Variable API_BASE_URL : string.
Variable ENDPOINTS : EndpointMap.
Variable Json : Type.
Variable t : string -> string.
(** What [AsyncStorage.clear()] and [queryClient.invalidateQueries()]
    settle to when they are called. *)
Variable storage_cleared : settled unit.
Variable queries_invalidated : settled unit.

(** The [onPress] of the destructive button of the reset alert. *)
Definition resetConfirmed : io Json (list Effect) :=
  bind (resetDatabase API_BASE_URL ENDPOINTS Json) (fun reset =>
    Ret match reset with
        | Rejected _ => [Alert_alert (t "error") (t "settings_reset_error")]
        | Fulfilled _ =>
            AsyncStorage_clear ::
            match storage_cleared with
            | Rejected _ => [Alert_alert (t "error") (t "settings_reset_error")]
            | Fulfilled _ =>
                invalidateQueries ::
                match queries_invalidated with
                | Rejected _ => [Alert_alert (t "error") (t "settings_reset_error")]
                | Fulfilled _ =>
                    [Alert_alert (t "success") (t "settings_reset_success")]
                end
            end
        end).

(** [handleResetData]: the confirmation alert, then the user's choice. *)
Definition handleResetData (choice : Choice) : io Json (list Effect) :=
  let asked := Alert_alert (t "settings_reset_title") (t "settings_reset_confirm") in
  match choice with
  | cancel => Ret [asked]
  | confirm => bind resetConfirmed (fun done => Ret (asked :: done))
  end.

End Settings.

End SettingsScreen.

(** ** Sample values

    A backend, a payload, two results and a screen state on which the
    statements below are evaluated. *)

Module Samples.

Import JsNumber ItemTypes Async Client ReportItemScreen.
Local Open Scope string_scope.

Definition base : string := "https://api.example".

Definition endpoints : EndpointMap :=
  {| LOST := "/api/lost"; FOUND := "/api/found"; HISTORY := "/api/history";
     RESET := "/api/reset"; HEALTH := "/health" |}.

Definition photo : ImageFile :=
  {| uri := "file:///tmp/photo.jpg"; name := "photo.jpg"; type := "image/jpeg" |}.

Definition wallet : RemoteItem :=
  {| id := 7; image_url := "uploads\wallet.png"; location_type := "Mall";
     location_detail := None; time_frame := "Today";
     item_description := Some "Brown wallet"; item_title := None;
     created_at := "2024-01-01T10:00:00Z" |}.

(** Submissions A (0.90) and B (0.60). *)
Definition resultA : MatchResult := {| item := wallet; similarity := decimal 90 2 |}.
Definition resultB : MatchResult := {| item := wallet; similarity := decimal 60 2 |}.

(** The parsed body of a submit response: its matches. *)
Definition Body : Type := list MatchResult.
Definition body_matches (b : Body) : settled (list MatchResult) := Fulfilled b.

(** A body that may be [null]: reading [matches] of [null] throws. *)
Definition NullableBody : Type := option (list MatchResult).

Definition nullable_matches (b : NullableBody) : settled (list MatchResult) :=
  match b with
  | Some matches => Fulfilled matches
  | None => Rejected (ErrorObject "TypeError" "Cannot read property 'matches' of null")
  end.

(** No response is received. *)
Definition offline : Request -> settled (Response Body) :=
  fun _ => Rejected (ErrorObject "TypeError" "Network request failed").

(** Every request is answered with status 500 and the body [boom]. *)
Definition failing : Request -> settled (Response Body) :=
  fun _ => Fulfilled {| ok := false; status := 500; text := Fulfilled "boom";
                        json := Rejected (ErrorObject "SyntaxError" "Unexpected token b") |}.

(** Every request is answered with status 200 and the two results. *)
Definition matching : Request -> settled (Response Body) :=
  fun _ => Fulfilled {| ok := true; status := 200; text := Fulfilled "";
                        json := Fulfilled [resultA; resultB] |}.

(** Every request is answered with status 200 and the body [null]. *)
Definition answering_null : Request -> settled (Response NullableBody) :=
  fun _ => Fulfilled {| ok := true; status := 200; text := Fulfilled "null";
                        json := Fulfilled None |}.

Definition translate (key : string) : string := key.

(** A payload whose description is present and empty. *)
Definition payload_empty_description : SubmitItemPayload :=
  {| file := photo; title := "Lost item at Mall"; description := Some "";
     locationType := "Mall"; locationDetail := None; timeFrame := "Today" |}.

Definition filledForm : ItemFormData :=
  {| form_image := Some photo; form_where := "Mall"; form_specificPlace := "";
     form_when := "Today"; form_description := "" |}.

Definition ready : State :=
  {| reportType := lost; formData := filledForm; matches := [];
     isSubmitting := false; showSuccessModal := false; error := None |}.

Definition shown : State :=
  {| reportType := lost; formData := emptyForm; matches := [resultA; resultB];
     isSubmitting := false; showSuccessModal := true; error := None |}.

End Samples.

(** * Properties *)

Unset Implicit Arguments.

(** ** Binary64 arithmetic *)

Module JsNumberFacts.
Import JsNumber.
Local Open Scope Z_scope.

Lemma digits2_pos_bounds (p : positive) :
  2 ^ (Zpos (digits2_pos p) - 1) <= Zpos p < 2 ^ Zpos (digits2_pos p).
Proof.
  induction p as [p IH | p IH | ]; cbn [digits2_pos].
  - rewrite Pos2Z.inj_succ.
    replace (Z.succ (Z.pos (digits2_pos p)) - 1) with (Z.succ (Z.pos (digits2_pos p) - 1)) by lia.
    rewrite !Z.pow_succ_r by lia. lia.
  - rewrite Pos2Z.inj_succ.
    replace (Z.succ (Z.pos (digits2_pos p)) - 1) with (Z.succ (Z.pos (digits2_pos p) - 1)) by lia.
    rewrite !Z.pow_succ_r by lia. lia.
  - cbn. lia.
Qed.

Lemma digits2_pos_le (p : positive) (k : Z) :
  Zpos p < 2 ^ k -> Zpos (digits2_pos p) <= k.
Proof.
  intros H.
  destruct (Z.le_gt_cases (Zpos (digits2_pos p)) k) as [Hle | Hgt]; [exact Hle |].
  exfalso.
  destruct (Z.lt_ge_cases k 0) as [Hneg | Hnn].
  - rewrite Z.pow_neg_r in H by lia. lia.
  - pose proof (digits2_pos_bounds p) as [Hlo _].
    assert (2 ^ k <= 2 ^ (Zpos (digits2_pos p) - 1)) by (apply Z.pow_le_mono_r; lia).
    lia.
Qed.

Lemma Zdigits2_le (m k : Z) : 0 <= m -> 0 <= k -> m < 2 ^ k -> Zdigits2 m <= k.
Proof.
  intros Hm Hk H. destruct m as [| p | p]; cbn; try lia.
  now apply digits2_pos_le.
Qed.

(** Shifting right. *)
Lemma shr_1_m (r : shr_record) : 0 <= shr_m r -> shr_m (shr_1 r) = shr_m r / 2.
Proof.
  destruct r as [m r s]. cbn [shr_m]. intros Hm.
  destruct m as [| [p | p |] |]; cbn [shr_1 shr_m].
  - reflexivity.
  - apply Z.div_unique with (r := 1); lia.
  - apply Z.div_unique with (r := 0); lia.
  - reflexivity.
  - lia.
Qed.

Lemma iter_shr_1_m (p : positive) : forall r,
  0 <= shr_m r -> shr_m (iter_pos shr_1 p r) = shr_m r / 2 ^ Zpos p.
Proof.
  induction p as [p IH | p IH |]; intros r Hr; cbn [iter_pos].
  - assert (H1 : 0 <= shr_m (shr_1 r)) by (rewrite shr_1_m by lia; apply Z.div_pos; lia).
    assert (H2 : 0 <= shr_m (iter_pos shr_1 p (shr_1 r)))
      by (rewrite IH by lia; apply Z.div_pos; [lia | apply Z.pow_pos_nonneg; lia]).
    rewrite IH, IH, shr_1_m by lia.
    rewrite !Z.div_div by (try lia; apply Z.pow_pos_nonneg; lia).
    f_equal.
    assert (E : 2 ^ Z.pos p~1 = 2 ^ 1 * 2 ^ Z.pos p * 2 ^ Z.pos p)
      by (rewrite <- !Z.pow_add_r by lia; f_equal; lia).
    rewrite E. lia.
  - assert (H2 : 0 <= shr_m (iter_pos shr_1 p r))
      by (rewrite IH by lia; apply Z.div_pos; [lia | apply Z.pow_pos_nonneg; lia]).
    rewrite IH, IH by lia.
    rewrite !Z.div_div by (try lia; apply Z.pow_pos_nonneg; lia).
    f_equal.
    assert (E : 2 ^ Z.pos p~0 = 2 ^ Z.pos p * 2 ^ Z.pos p)
      by (rewrite <- Z.pow_add_r by lia; f_equal; lia).
    rewrite E. lia.
  - rewrite shr_1_m by lia. reflexivity.
Qed.

Lemma shr_record_of_loc_m m l : shr_m (shr_record_of_loc m l) = m.
Proof. destruct l as [| []]; reflexivity. Qed.

(** What [shr_fexp] returns: a mantissa between 0 and the given one and an
    exponent that is the larger of the given one and the canonical one. *)
Lemma shr_fexp_bounds (m e : Z) (l : location) :
  0 <= m ->
  0 <= shr_m (fst (shr_fexp prec emax m e l)) <= m
  /\ snd (shr_fexp prec emax m e l) = Z.max e (fexp prec emax (Zdigits2 m + e)).
Proof.
  intros Hm. unfold shr_fexp, shr.
  destruct (fexp prec emax (Zdigits2 m + e) - e) as [| k | k] eqn:Hk; cbn [fst snd].
  - rewrite shr_record_of_loc_m. lia.
  - rewrite iter_shr_1_m by (rewrite shr_record_of_loc_m; lia).
    rewrite shr_record_of_loc_m. split; [| lia].
    assert (0 < 2 ^ Z.pos k) by (apply Z.pow_pos_nonneg; lia).
    split; [apply Z.div_pos; lia |].
    apply Z.div_le_upper_bound; nia.
  - rewrite shr_record_of_loc_m. lia.
Qed.

Lemma round_nearest_even_bounds (m : Z) (l : location) :
  0 <= m -> 0 <= round_nearest_even m l <= m + 1.
Proof.
  intros Hm. destruct l as [| []]; cbn [round_nearest_even]; try lia.
  destruct (Z.even m); lia.
Qed.

(** Rounding a non-negative mantissa never produces NaN, and the sign is
    the one asked for. *)
Lemma binary_round_aux_cases (sx : bool) (m e : Z) (l : location) :
  0 <= m ->
  binary_round_aux prec emax sx m e l = S754_zero sx
  \/ (exists m' e', binary_round_aux prec emax sx m e l = S754_finite sx m' e')
  \/ binary_round_aux prec emax sx m e l = S754_infinity sx.
Proof.
  intros Hm. unfold binary_round_aux.
  pose proof (shr_fexp_bounds m e l Hm) as [H1 _].
  destruct (shr_fexp prec emax m e l) as [mrs' e'] eqn:E1. cbn [fst snd] in H1.
  pose proof (round_nearest_even_bounds (shr_m mrs') (loc_of_shr_record mrs')
                (proj1 H1)) as H2.
  pose proof (shr_fexp_bounds (round_nearest_even (shr_m mrs') (loc_of_shr_record mrs'))
                e' loc_Exact (proj1 H2)) as [H3 _].
  destruct (shr_fexp prec emax (round_nearest_even _ _) e' loc_Exact)
    as [mrs'' e''] eqn:E2. cbn [fst snd] in H3.
  destruct (shr_m mrs'') as [| p | p]; [now left | | lia].
  destruct (e'' <=? emax - prec); [right; left; eauto | now right; right].
Qed.

(** A mantissa below [2^k - 1] at an exponent that leaves room rounds to a
    zero or to a finite Number. *)
Lemma binary_round_aux_finite (sx : bool) (m e k : Z) (l : location) :
  0 <= m -> m + 1 < 2 ^ k -> prec <= k <= emax -> e + 2 * k <= emax ->
  binary_round_aux prec emax sx m e l = S754_zero sx
  \/ exists m' e', binary_round_aux prec emax sx m e l = S754_finite sx m' e'.
Proof.
  intros Hm Hk Hpk Hek. unfold binary_round_aux.
  pose proof (shr_fexp_bounds m e l Hm) as [H1 E1'].
  destruct (shr_fexp prec emax m e l) as [mrs' e'] eqn:E1. cbn [fst snd] in H1, E1'.
  pose proof (round_nearest_even_bounds (shr_m mrs') (loc_of_shr_record mrs')
                (proj1 H1)) as H2.
  pose proof (shr_fexp_bounds (round_nearest_even (shr_m mrs') (loc_of_shr_record mrs'))
                e' loc_Exact (proj1 H2)) as [H3 E2'].
  destruct (shr_fexp prec emax (round_nearest_even _ _) e' loc_Exact)
    as [mrs'' e''] eqn:E2. cbn [fst snd] in H3, E2'.
  destruct (shr_m mrs'') as [| p | p]; [now left | | lia].
  assert (D1 : Zdigits2 m <= k) by (apply Zdigits2_le; unfold prec in *; lia).
  assert (D2 : Zdigits2 (round_nearest_even (shr_m mrs') (loc_of_shr_record mrs')) <= k)
    by (apply Zdigits2_le; unfold prec in *; lia).
  assert (Hle : e'' <= emax - prec).
  { subst e'' e'. unfold fexp, emin, prec, emax in *. lia. }
  apply Z.leb_le in Hle. rewrite Hle. right; eauto.
Qed.

Lemma binary_normalize_not_nan (n : Z) (s : bool) :
  binary_normalize prec emax n 0 s <> S754_nan.
Proof.
  destruct n as [| p | p]; cbn [binary_normalize]; [discriminate | |];
    unfold binary_round;
    destruct (shl_align _ _ _) as [mz ez];
    match goal with
    | |- binary_round_aux _ _ ?sx _ _ _ <> _ =>
        destruct (binary_round_aux_cases sx (Zpos mz) ez loc_Exact ltac:(lia))
          as [H | [(m' & e' & H) | H]]; rewrite H; discriminate
    end.
Qed.

Lemma SFeqb_refl (x : number) : x <> S754_nan -> SFeqb x x = true.
Proof.
  intros Hx. unfold SFeqb.
  destruct x as [s | s | | s m e]; cbn [SFcompare]; try reflexivity.
  - destruct s; reflexivity.
  - congruence.
  - rewrite Z.compare_refl, Pos.compare_cont_refl. destruct s; reflexivity.
Qed.

(** [round_to_Z] is rounding half up: the floor of the value plus 1/2. *)
Lemma round_to_Z_half_up (s : bool) (m : positive) (e : Z) :
  round_to_Z s m e = Qfloor (to_Q (S754_finite s m e) + (1 # 2)).
Proof.
  unfold round_to_Z, to_Q. set (M := cond_Zopp s (Z.pos m)).
  destruct (Z.leb_spec 0 e) as [He | He].
  - transitivity ((2 * (M * 2 ^ e) + 1) / 2).
    + apply Z.div_unique with (r := 1); lia.
    + rewrite Zdiv_Qdiv. apply Qfloor_comp.
      rewrite inject_Z_plus, !inject_Z_mult, Zpower_Qpower by lia.
      change (inject_Z 2) with 2%Q. change (inject_Z 1) with 1%Q. field.
  - assert (HD : 0 < 2 ^ (- e)) by (apply Z.pow_pos_nonneg; lia).
    rewrite Z.shiftr_div_pow2 by lia.
    replace (1 - e) with (1 + - e) by lia.
    rewrite Z.pow_add_r, Z.pow_1_r by lia.
    rewrite Zdiv_Qdiv. apply Qfloor_comp.
    rewrite inject_Z_plus, !inject_Z_mult.
    replace e with (- - e) at 3 by lia.
    assert (EP : (2 ^ (- e))%Q == inject_Z (2 ^ (- e)))
      by (rewrite Zpower_Qpower by lia; reflexivity).
    rewrite Qpower_opp, EP.
    change (inject_Z 2) with 2%Q.
    assert (HQ : ~ inject_Z (2 ^ (- e)) == 0).
    { intros E. apply (Qlt_irrefl 0). rewrite <- E at 2.
      rewrite <- (Zlt_Qlt 0). exact HD. }
    field. exact HQ.
Qed.

Lemma of_Z_0 : of_Z 0 = S754_zero false.
Proof. reflexivity. Qed.

Lemma of_Z_1 : of_Z 1 = S754_finite false one_mantissa (-52).
Proof. vm_compute. reflexivity. Qed.

Lemma of_Z_100 : of_Z 100 = S754_finite false hundred_mantissa (-46).
Proof. vm_compute. reflexivity. Qed.

Lemma compare_cont_le (p q : positive) :
  match Pos.compare_cont Eq p q with Gt => false | _ => true end = true ->
  (p <= q)%positive.
Proof.
  rewrite Pos.compare_cont_spec. cbn [Pos.switch_Eq].
  destruct (Pos.compare_spec p q) as [C | C | C]; intros H.
  - rewrite C. apply Pos.le_refl.
  - apply Pos.lt_le_incl, C.
  - discriminate H.
Qed.

(** The Numbers in [0, 1]: the zeros and the positive ones up to 1. *)
Lemma in_unit_inv (s : number) :
  in_unit s = true ->
  (exists sg, s = S754_zero sg)
  \/ (exists m e, s = S754_finite false m e
                  /\ (e < -52 \/ (e = -52 /\ (m <= one_mantissa)%positive))).
Proof.
  unfold in_unit, ge, le, SFleb. rewrite of_Z_0, of_Z_1.
  intros H. apply andb_true_iff in H as [H0 H1].
  destruct s as [sg | sg | | sg m e]; cbn [SFcompare] in H0, H1.
  - left; eauto.
  - destruct sg; discriminate.
  - discriminate.
  - destruct sg; [discriminate |]. right. exists m, e. split; [reflexivity |].
    revert H1. destruct (Z.compare_spec e (-52)) as [E | E | E]; intros H1.
    + right. split; [exact E |]. revert H1. apply compare_cont_le.
    + left. exact E.
    + discriminate H1.
Qed.

(** The mantissa of a Number has at most 53 bits. *)
Lemma is_number_mantissa (s : bool) (m : positive) (e : Z) :
  is_number (S754_finite s m e) = true -> Zpos m < 2 ^ prec /\ emin prec emax <= e <= emax - prec.
Proof.
  unfold is_number, valid_binary, bounded, canonical_mantissa.
  intros H. apply andb_true_iff in H as [Hc He].
  apply Z.eqb_eq in Hc. apply Z.leb_le in He.
  pose proof (digits2_pos_bounds m) as [_ Hd].
  assert (Z.pos (digits2_pos m) <= prec)
    by (unfold fexp, emin, prec, emax in *; lia).
  split; [| unfold fexp, emin, prec, emax in *; lia].
  eapply Z.lt_le_trans; [exact Hd |]. apply Z.pow_le_mono_r; lia.
Qed.

Lemma mantissa_product_bound (a b : Z) :
  a < 2 ^ prec -> b < 2 ^ prec -> 0 < a -> 0 < b -> a * b + 1 < 2 ^ 107.
Proof.
  replace (2 ^ 107) with (2 * (2 ^ prec * 2 ^ prec)) by (vm_compute; reflexivity).
  generalize (2 ^ prec). intros P Ha Hb Ha0 Hb0. nia.
Qed.

(** A similarity times 100 is a zero or a positive finite Number. *)
Lemma mul_100_finite (s : number) :
  is_number s = true -> in_unit s = true ->
  (exists sg, mul s (of_Z 100) = S754_zero sg)
  \/ exists m e, mul s (of_Z 100) = S754_finite false m e.
Proof.
  intros Hn Hu. rewrite of_Z_100.
  destruct (in_unit_inv s Hu) as [[sg ->] | (m & e & -> & He)].
  - left. exists (xorb sg false). reflexivity.
  - apply is_number_mantissa in Hn as [Hm _].
    unfold mul. cbn [SFmul xorb].
    destruct (binary_round_aux_finite false (Z.pos (m * hundred_mantissa))
                (e + -46) 107 loc_Exact) as [H | H].
    + apply Pos2Z.is_nonneg.
    + rewrite Pos2Z.inj_mul. apply mantissa_product_bound;
        [exact Hm | vm_compute; reflexivity | apply Pos2Z.is_pos | apply Pos2Z.is_pos].
    + vm_compute. split; discriminate.
    + clear Hm. unfold emax. destruct He as [He | [He _]]; lia.
    + left. eauto.
    + right. exact H.
Qed.
End JsNumberFacts.

(** ** The order of Numbers *)

Module JsNumberOrder.
Import JsNumber JsNumberFacts.
Local Open Scope Z_scope.

Lemma pow2_pos_Q (e : Z) : (0 < 2 ^ e)%Q.
Proof. apply Qpower_0_lt. reflexivity. Qed.

Lemma pow2_split_Q (e1 e2 : Z) :
  e1 <= e2 -> (2 ^ e2 == inject_Z (2 ^ (e2 - e1)) * 2 ^ e1)%Q.
Proof.
  intros H. rewrite Zpower_Qpower by lia.
  change (inject_Z 2) with 2%Q.
  rewrite <- Qpower_plus by discriminate.
  replace (e2 - e1 + e1) with e2 by lia. reflexivity.
Qed.

(** Of two canonical mantissas, the one with the smaller exponent stands
    for the smaller value. *)
Lemma canonical_exponent_lt (m1 m2 : positive) (e1 e2 : Z) :
  canonical_mantissa prec emax m1 e1 = true ->
  canonical_mantissa prec emax m2 e2 = true ->
  e1 < e2 ->
  (inject_Z (Zpos m1) * 2 ^ e1 < inject_Z (Zpos m2) * 2 ^ e2)%Q.
Proof.
  unfold canonical_mantissa. intros C1 C2 He.
  apply Z.eqb_eq in C1, C2.
  pose proof (digits2_pos_bounds m1) as [_ U1].
  pose proof (digits2_pos_bounds m2) as [L2 _].
  assert (D1 : Z.pos (digits2_pos m1) <= 53)
    by (unfold fexp, emin, prec, emax in C1; lia).
  assert (D2 : Z.pos (digits2_pos m2) = 53)
    by (unfold fexp, emin, prec, emax in C1, C2; lia).
  rewrite D2 in L2.
  assert (U1' : Z.pos m1 < 2 ^ 53).
  { eapply Z.lt_le_trans; [exact U1 |]. apply Z.pow_le_mono_r; lia. }
  assert (P : 2 ^ 1 <= 2 ^ (e2 - e1)) by (apply Z.pow_le_mono_r; lia).
  assert (Hz : Z.pos m1 < Z.pos m2 * 2 ^ (e2 - e1)).
  { change (2 ^ 1) with 2 in P. change (2 ^ (53 - 1)) with 4503599627370496 in L2.
    change (2 ^ 53) with 9007199254740992 in U1'.
    set (K := 2 ^ (e2 - e1)) in *. clearbody K.
    clear - L2 U1' P. nia. }
  rewrite (pow2_split_Q e1 e2) by lia.
  rewrite Qmult_assoc, <- inject_Z_mult.
  apply Qmult_lt_r; [apply pow2_pos_Q |].
  rewrite <- Zlt_Qlt. exact Hz.
Qed.

Lemma positive_value (m : positive) (e : Z) : (0 < inject_Z (Zpos m) * 2 ^ e)%Q.
Proof.
  apply Qmult_lt_0_compat; [| apply pow2_pos_Q].
  rewrite <- (Zlt_Qlt 0). apply Pos2Z.is_pos.
Qed.

Lemma to_Q_finite_neg (m : positive) (e : Z) :
  (to_Q (S754_finite true m e) == - (inject_Z (Zpos m) * 2 ^ e))%Q.
Proof.
  cbn [to_Q cond_Zopp]. change (- Z.pos m) with (Z.opp (Z.pos m)).
  rewrite inject_Z_opp. ring.
Qed.

(** Comparison of two positive canonical Numbers. *)
Lemma compare_positive (m1 m2 : positive) (e1 e2 : Z) :
  canonical_mantissa prec emax m1 e1 = true ->
  canonical_mantissa prec emax m2 e2 = true ->
  (inject_Z (Zpos m1) * 2 ^ e1 ?= inject_Z (Zpos m2) * 2 ^ e2)%Q
  = match e1 ?= e2 with
    | Lt => Lt
    | Gt => Gt
    | Eq => Pos.compare_cont Eq m1 m2
    end.
Proof.
  intros C1 C2. destruct (Z.compare_spec e1 e2) as [E | E | E].
  - subst e2. rewrite Pos.compare_cont_spec. cbn [Pos.switch_Eq].
    destruct (Pos.compare_spec m1 m2) as [M | M | M].
    + subst. apply Qeq_alt. reflexivity.
    + apply Qlt_alt. apply Qmult_lt_r; [apply pow2_pos_Q |].
      rewrite <- Zlt_Qlt. exact M.
    + apply Qgt_alt. apply Qmult_lt_r; [apply pow2_pos_Q |].
      rewrite <- Zlt_Qlt. exact M.
  - apply Qlt_alt. now apply canonical_exponent_lt.
  - apply Qgt_alt. now apply canonical_exponent_lt.
Qed.

Lemma Qcompare_opp (a b : Q) : (- a ?= - b)%Q = CompOpp (a ?= b)%Q.
Proof.
  destruct (Qcompare_spec a b) as [H | H | H]; cbn [CompOpp].
  - apply Qeq_alt. rewrite H. reflexivity.
  - apply Qgt_alt. apply Qopp_lt_compat. exact H.
  - apply Qlt_alt. apply Qopp_lt_compat. exact H.
Qed.

Lemma is_number_canonical (s : bool) (m : positive) (e : Z) :
  is_number (S754_finite s m e) = true -> canonical_mantissa prec emax m e = true.
Proof.
  unfold is_number, valid_binary, bounded. intros H.
  apply andb_true_iff in H. tauto.
Qed.

(** [SFcompare] on finite Numbers is the comparison of their values. *)
Lemma SFcompare_to_Q (x y : number) :
  is_number x = true -> is_number y = true ->
  isFinite x = true -> isFinite y = true ->
  SFcompare x y = Some (to_Q x ?= to_Q y)%Q.
Proof.
  intros Nx Ny Fx Fy.
  destruct x as [sx | sx | | sx mx ex]; try discriminate Fx;
    destruct y as [sy | sy | | sy my ey]; try discriminate Fy.
  - reflexivity.
  - cbn [SFcompare]. f_equal. symmetry. destruct sy.
    + apply Qgt_alt. rewrite to_Q_finite_neg. cbn [to_Q].
      pose proof (positive_value my ey) as H.
      apply Qopp_lt_compat in H. exact H.
    + apply Qlt_alt. apply positive_value.
  - cbn [SFcompare]. f_equal. symmetry. destruct sx.
    + apply Qlt_alt. rewrite to_Q_finite_neg. cbn [to_Q].
      pose proof (positive_value mx ex) as H.
      apply Qopp_lt_compat in H. exact H.
    + apply Qgt_alt. apply positive_value.
  - apply is_number_canonical in Nx, Ny.
    cbn [SFcompare]. f_equal. symmetry. destruct sx, sy.
    + rewrite !to_Q_finite_neg, Qcompare_opp.
      rewrite (compare_positive mx my ex ey Nx Ny).
      destruct (ex ?= ey); reflexivity.
    + apply Qlt_alt. rewrite to_Q_finite_neg.
      eapply Qlt_trans; [| apply positive_value].
      pose proof (positive_value mx ex) as H.
      apply Qopp_lt_compat in H. exact H.
    + apply Qgt_alt. rewrite to_Q_finite_neg.
      eapply Qlt_trans; [| apply positive_value].
      pose proof (positive_value my ey) as H.
      apply Qopp_lt_compat in H. exact H.
    + apply (compare_positive mx my ex ey Nx Ny).
Qed.
(** [x >= y] on finite Numbers is the order of their values. *)
Lemma ge_to_Q (x y : number) :
  is_number x = true -> is_number y = true ->
  isFinite x = true -> isFinite y = true ->
  ge x y = true <-> (to_Q y <= to_Q x)%Q.
Proof.
  intros Nx Ny Fx Fy. unfold ge.
  rewrite (SFcompare_to_Q x y Nx Ny Fx Fy).
  rewrite Qle_alt, <- Qcompare_antisym.
  destruct (to_Q y ?= to_Q x)%Q; cbn [CompOpp]; split; intros H;
    first [reflexivity | discriminate H | discriminate | exfalso; apply H; reflexivity].
Qed.
End JsNumberOrder.

(** ** Arrays *)

Module JsArrayFacts.
Import JsArray.

Lemma filter_loop {A : Type} (callback : A -> bool) (O acc : list A) :
  fold_left (fun acc kValue => if callback kValue then acc ++ [kValue] else acc) O acc
  = acc ++ List.filter callback O.
Proof.
  revert acc. induction O as [| x O IH]; intros acc; cbn [fold_left List.filter].
  - now rewrite app_nil_r.
  - rewrite IH. destruct (callback x); [| reflexivity].
    now rewrite <- app_assoc.
Qed.

Lemma filter_eq {A : Type} (callback : A -> bool) (O : list A) :
  filter callback O = List.filter callback O.
Proof. unfold filter. now rewrite filter_loop. Qed.

Lemma subsequence_filter {A : Type} (p : A -> bool) (l : list A) :
  subsequence (List.filter p l) l.
Proof.
  induction l as [| x l IH]; cbn [List.filter]; [constructor |].
  destruct (p x); now constructor.
Qed.

(** Every subsequence whose elements all pass is a subsequence of the
    filtered list. *)
Lemma subsequence_filter_greatest {A : Type} (p : A -> bool) (l' l : list A) :
  subsequence l' l -> Forall (fun x => p x = true) l' ->
  subsequence l' (List.filter p l).
Proof.
  induction 1 as [| x l' l _ IH | x l' l _ IH]; intros Hall; cbn [List.filter].
  - constructor.
  - destruct (p x); [apply subseq_skip |]; now apply IH.
  - inversion Hall as [| ? ? Hx Hl']; subst. rewrite Hx.
    apply subseq_take. now apply IH.
Qed.

Lemma filter_all {A : Type} (p : A -> bool) (l : list A) :
  Forall (fun x => p x = true) l -> List.filter p l = l.
Proof.
  induction 1 as [| x l Hx _ IH]; cbn [List.filter]; [reflexivity |].
  now rewrite Hx, IH.
Qed.

Lemma filter_none {A : Type} (p : A -> bool) (l : list A) :
  Forall (fun x => p x = false) l -> List.filter p l = [].
Proof.
  induction 1 as [| x l Hx _ IH]; cbn [List.filter]; [reflexivity |].
  now rewrite Hx, IH.
Qed.

Lemma some_exists {A : Type} (p : A -> bool) (l : list A) :
  some p l = true <-> exists x, In x l /\ p x = true.
Proof.
  induction l as [| x l IH]; cbn [some In].
  - split; [discriminate | intros (x & [] & _)].
  - destruct (p x) eqn:Hx.
    + split; [intros _; exists x; auto | reflexivity].
    + rewrite IH. split.
      * intros (y & Hy & Py). exists y; auto.
      * intros (y & [-> | Hy] & Py); [congruence | exists y; auto].
Qed.
End JsArrayFacts.

(** ** The match classifier *)

Module ClassifierFacts.
Import JsNumber JsNumberFacts JsNumberOrder JsArray JsArrayFacts ItemTypes ReportItemScreen.
Local Open Scope Z_scope.

Lemma decimal_1_01 : decimal 101 2 = S754_finite false mantissa_1_01 (-52).
Proof. vm_compute. reflexivity. Qed.

Lemma in_unit_ge_0 (s : number) : in_unit s = true -> ge s (of_Z 0) = true.
Proof. unfold in_unit. intros H. apply andb_true_iff in H. tauto. Qed.

Lemma in_unit_below_1_01 (s : number) :
  in_unit s = true -> ge s (decimal 101 2) = false.
Proof.
  intros H. rewrite decimal_1_01. unfold ge.
  destruct (in_unit_inv s H) as [[sg ->] | (m & e & -> & [He | [-> Hm]])];
    cbn [SFcompare].
  - reflexivity.
  - destruct (Z.compare_spec e (-52)); [lia | reflexivity | lia].
  - rewrite Z.compare_refl, Pos.compare_cont_spec. cbn [Pos.switch_Eq].
    assert (L : (m < mantissa_1_01)%positive).
    { eapply Pos.le_lt_trans; [exact Hm |]. vm_compute. reflexivity. }
    apply Pos.compare_lt_iff in L. now rewrite L.
Qed.

(** C1. [filteredMatches] keeps exactly the results whose similarity is
    [>=] the threshold, in the order of the response: it is a
    subsequence of the results, a result is in it exactly when it is a
    result that meets the threshold, and every subsequence of results
    that meet the threshold is a subsequence of it; when all
    similarities lie in [0, 1], the threshold 0 keeps the whole list and
    the threshold 1.01 keeps nothing; no results give no matches. *)
Theorem filteredMatches_exact (t : number) (st : State) :
  subsequence (filteredMatches t st) (matches st)
  /\ (forall m, In m (filteredMatches t st)
                <-> In m (matches st) /\ ge (similarity m) t = true)
  /\ (forall l, subsequence l (matches st) ->
                Forall (fun m => ge (similarity m) t = true) l ->
                subsequence l (filteredMatches t st))
  /\ (Forall (fun m => in_unit (similarity m) = true) (matches st) ->
      filteredMatches (of_Z 0) st = matches st
      /\ filteredMatches (decimal 101 2) st = [])
  /\ (matches st = [] -> filteredMatches t st = []).
Proof.
  unfold filteredMatches. rewrite !filter_eq.
  split; [apply subsequence_filter |].
  split; [intros m; apply filter_In |].
  split; [intros l; apply subsequence_filter_greatest |].
  split.
  - intros Hunit. split.
    + apply filter_all. eapply Forall_impl; [| exact Hunit].
      intros m. apply in_unit_ge_0.
    + apply filter_none. eapply Forall_impl; [| exact Hunit].
      intros m. apply in_unit_below_1_01.
  - intros ->. reflexivity.
Qed.

Lemma SFcompare_refl (x : number) : isNaN x = false -> SFcompare x x = Some Eq.
Proof.
  destruct x as [s | s | | s m e]; cbn [SFcompare isNaN]; intros H.
  - reflexivity.
  - destruct s; reflexivity.
  - discriminate H.
  - rewrite Z.compare_refl, Pos.compare_cont_refl. destruct s; reflexivity.
Qed.

(** C2. The status of a displayed match is [high] exactly when the
    similarity is [>=] the high threshold and [possible] otherwise; a
    similarity equal to the threshold meets it; on finite Numbers [>=]
    is the order of the values; the label depends on nothing but the
    similarity and the threshold. *)
Theorem status_high_iff (base : string) (h : number) (t : string -> string)
    (st : State) (m : MatchResult) :
  (status (convertToMatch base h t st m) = high <-> ge (similarity m) h = true)
  /\ (status (convertToMatch base h t st m) = possible
      <-> ge (similarity m) h = false)
  /\ (isNaN (similarity m) = false ->
      status (convertToMatch base (similarity m) t st m) = high)
  /\ (is_number (similarity m) = true -> is_number h = true ->
      isFinite (similarity m) = true -> isFinite h = true ->
      (status (convertToMatch base h t st m) = high
       <-> (to_Q h <= to_Q (similarity m))%Q))
  /\ (forall base' t' st' m', similarity m' = similarity m ->
      status (convertToMatch base' h t' st' m')
      = status (convertToMatch base h t st m)).
Proof.
  cbn [convertToMatch status].
  assert (A : (if ge (similarity m) h then high else possible) = high
              <-> ge (similarity m) h = true)
    by (destruct (ge (similarity m) h); split; congruence).
  split; [exact A |].
  split; [destruct (ge (similarity m) h); split; congruence |].
  split.
  - intros Hnan. unfold ge. now rewrite SFcompare_refl.
  - split.
    + intros N1 N2 F1 F2. rewrite A. now apply ge_to_Q.
    + intros base' t' st' m' E. now rewrite E.
Qed.

Lemma percent_0_744 :
  Math_round (mul (decimal 744 3) (of_Z 100)) = of_Z 74.
Proof. vm_compute. reflexivity. Qed.

Lemma percent_0_745 :
  Math_round (mul (decimal 745 3) (of_Z 100)) = of_Z 75.
Proof. vm_compute. reflexivity. Qed.

(** C5. For a similarity in [0, 1] the displayed percentage is the integer
    [floor (p + 1/2)], where [p] is the Number product of the similarity
    and 100: rounding half up.  0.744 is displayed as 74 and 0.745 as 75,
    whatever the rest of the match and the screen state are. *)
Theorem percentage_round_half_up (base : string) (h : number)
    (t : string -> string) (st : State) :
  (forall m : MatchResult,
      is_number (similarity m) = true -> in_unit (similarity m) = true ->
      exists n : Z,
        strict_equal (match_similarity (convertToMatch base h t st m)) (of_Z n) = true
        /\ n = Qfloor (to_Q (mul (similarity m) (of_Z 100)) + (1 # 2)))
  /\ (forall it, match_similarity
                   (convertToMatch base h t st
                      {| item := it; similarity := decimal 744 3 |}) = of_Z 74)
  /\ (forall it, match_similarity
                   (convertToMatch base h t st
                      {| item := it; similarity := decimal 745 3 |}) = of_Z 75).
Proof.
  cbn [convertToMatch match_similarity similarity].
  split; [| split; intros _; [apply percent_0_744 | apply percent_0_745]].
  intros m Hn Hu.
  destruct (mul_100_finite (similarity m) Hn Hu) as [[sg E] | (p & e & E)];
    rewrite E; cbn [Math_round to_Q].
  - exists 0. split; [destruct sg; reflexivity | reflexivity].
  - exists (round_to_Z false p e). split.
    + apply SFeqb_refl, binary_normalize_not_nan.
    + apply round_to_Z_half_up.
Qed.

(** C8. The card shows its high-match indicator exactly when some match
    has a (percentage) similarity [>= 75].  The constant is the card's
    own: with the high threshold 0.85 a similarity of 0.80 is tagged
    [possible] and still lights the indicator, and with the high
    threshold 0.5 a similarity of 0.6 is tagged [high] and does not. *)
Theorem hasHighMatch_iff (matches : list Match) :
  (ItemCard.hasHighMatch matches = true
   <-> exists m, In m matches /\ ge (match_similarity m) (of_Z 75) = true)
  /\ (forall base t st it,
        let m := convertToMatch base (decimal 85 2) t st
                   {| item := it; similarity := decimal 80 2 |} in
        status m = possible /\ ItemCard.hasHighMatch [m] = true)
  /\ (forall base t st it,
        let m := convertToMatch base (decimal 5 1) t st
                   {| item := it; similarity := decimal 6 1 |} in
        status m = high /\ ItemCard.hasHighMatch [m] = false).
Proof.
  split; [apply some_exists |].
  split; intros base t st it m; subst m;
    cbn [convertToMatch status ItemCard.hasHighMatch some match_similarity similarity];
    split; vm_compute; reflexivity.
Qed.

Lemma filteredMatches_exact_witness :
  filteredMatches (of_Z 0) Samples.shown = matches Samples.shown
  /\ filteredMatches (decimal 101 2) Samples.shown = [].
Proof.
  apply (filteredMatches_exact (decimal 5 1) Samples.shown).
  repeat constructor.
Defined.

Lemma status_high_iff_witness :
  status (convertToMatch Samples.base (decimal 85 2) Samples.translate
            Samples.shown Samples.resultA) = high
  <-> (to_Q (decimal 85 2) <= to_Q (similarity Samples.resultA))%Q.
Proof.
  apply (status_high_iff Samples.base (decimal 85 2) Samples.translate
           Samples.shown Samples.resultA); vm_compute; reflexivity.
Defined.

Lemma percentage_round_half_up_witness :
  exists n : Z,
    strict_equal
      (match_similarity
         (convertToMatch Samples.base (decimal 85 2) Samples.translate
            Samples.shown Samples.resultA)) (of_Z n) = true
    /\ n = Qfloor (to_Q (mul (similarity Samples.resultA) (of_Z 100)) + (1 # 2)).
Proof.
  apply (percentage_round_half_up Samples.base (decimal 85 2) Samples.translate
           Samples.shown); vm_compute; reflexivity.
Defined.
End ClassifierFacts.

(** ** The API client *)

Module ClientFacts.
Import ItemTypes Async JsString Client.
Local Open Scope string_scope.

Lemma replace_all_length (c d : ascii) (s : string) :
  String.length (replace_all c d s) = String.length s.
Proof. induction s as [| a s IH]; cbn; [reflexivity | now rewrite IH]. Qed.

Lemma replace_all_get (c d : ascii) (s : string) (i : nat) :
  String.get i (replace_all c d s)
  = option_map (fun a => if Ascii.eqb a c then d else a) (String.get i s).
Proof.
  revert i. induction s as [| a s IH]; intros i; cbn [replace_all String.get].
  - reflexivity.
  - destruct i as [| i]; [reflexivity | apply IH].
Qed.

Lemma truthy_false (s : string) : truthy s = false <-> s = "".
Proof.
  unfold truthy. rewrite negb_false_iff. apply String.eqb_eq.
Qed.

Lemma truthy_true (s : string) : truthy s = true <-> s <> "".
Proof.
  unfold truthy. rewrite negb_true_iff. apply String.eqb_neq.
Qed.

(** C3. [buildImageUrl] returns the empty string for the empty string;
    otherwise it replaces every backslash by a slash (position by
    position, nothing else changes) and returns the normalised string
    as it is when it starts with [http://] or [https://], and after the
    base URL otherwise, with a [/] put between the two only when the
    normalised string does not start with one. *)
Theorem buildImageUrl_spec (base p : string) :
  let normalized := replace_all backslash slash p in
  (p = "" -> buildImageUrl base p = "")
  /\ (p <> "" ->
      startsWith normalized "http://" = true
      \/ startsWith normalized "https://" = true ->
      buildImageUrl base p = normalized)
  /\ (p <> "" ->
      startsWith normalized "http://" = false ->
      startsWith normalized "https://" = false ->
      buildImageUrl base p
      = base ++ (if startsWith normalized "/" then normalized
                 else "/" ++ normalized))
  /\ (String.length normalized = String.length p
      /\ forall i, String.get i normalized
                   = option_map (fun a => if Ascii.eqb a backslash then slash else a)
                       (String.get i p))
  /\ (forall rest, buildImageUrl base (String slash rest)
                   = base ++ String slash (replace_all backslash slash rest))
  /\ buildImageUrl base "uploads\a\b.png" = base ++ "/uploads/a/b.png"
  /\ buildImageUrl base "/uploads/a.png" = base ++ "/uploads/a.png".
Proof.
  intros normalized. unfold buildImageUrl. fold normalized.
  split; [intros ->; reflexivity |].
  split.
  { intros Hp H. apply truthy_true in Hp. rewrite Hp. cbn [negb].
    destruct H as [H | H]; rewrite H; [reflexivity |].
    now rewrite orb_true_r. }
  split.
  { intros Hp H1 H2. apply truthy_true in Hp. rewrite Hp, H1, H2. reflexivity. }
  split; [split; [apply replace_all_length | apply replace_all_get] |].
  split; [intros rest; destruct rest; reflexivity |].
  split; reflexivity.
Qed.

Lemma append_assoc (a b c : string) : (a ++ b) ++ c = a ++ b ++ c.
Proof. induction a as [| x a IH]; cbn; [reflexivity | now rewrite IH]. Qed.

Lemma append_empty_r (a : string) : a ++ "" = a.
Proof. induction a as [| x a IH]; cbn; [reflexivity | now rewrite IH]. Qed.

Lemma includes_middle (a b c : string) : includes (a ++ b ++ c) b.
Proof. now exists a, c. Qed.

Lemma includes_end (a b : string) : includes (a ++ b) b.
Proof. exists a, "". now rewrite append_empty_r. Qed.

(** The message of a failed request holds the status and the body text. *)
Lemma failure_message_includes (prefix code errorText : string) :
  includes (prefix ++ code ++ " - " ++ errorText) code
  /\ includes (prefix ++ code ++ " - " ++ errorText) errorText.
Proof.
  split; [apply includes_middle |].
  rewrite <- !append_assoc. apply includes_end.
Qed.

(** C4. A submission issues exactly one request.  When the response
    has a non-success status the call is rejected with an [Error] whose
    message holds the status code and the body text, or the text
    [Unknown error] when the body cannot be read; status 500 with body
    [boom] gives [Failed to submit lost item: 500 - boom].  When [fetch]
    itself is rejected the call is rejected with that same value, to
    which nothing is added, and a [TypeError] of the transport is never
    one of the client's own errors. *)
Theorem submit_failure_modes (base : string) (eps : EndpointMap) (Json : Type)
    (payload : SubmitItemPayload) (network : Request -> settled (Response Json)) :
  let request (endpoint : string) :=
    {| url := base ++ endpoint; method := POST;
       body := Some (buildFormData payload);
       headers := [("Content-Type", "multipart/form-data")] |} in
  let body_text (response : Response Json) :=
    match text response with Fulfilled s => s | Rejected _ => "Unknown error" end in
  (forall response,
      network (request (LOST eps)) = Fulfilled response -> ok response = false ->
      exists message,
        run network (submitLostItem base eps Json payload)
        = ([request (LOST eps)], Rejected (new_Error message))
        /\ includes message (of_N (status response))
        /\ includes message (body_text response))
  /\ (forall response,
      network (request (FOUND eps)) = Fulfilled response -> ok response = false ->
      exists message,
        run network (submitFoundItem base eps Json payload)
        = ([request (FOUND eps)], Rejected (new_Error message))
        /\ includes message (of_N (status response))
        /\ includes message (body_text response))
  /\ (forall response,
      network (request (LOST eps)) = Fulfilled response -> ok response = false ->
      status response = 500%N -> text response = Fulfilled "boom" ->
      snd (run network (submitLostItem base eps Json payload))
      = Rejected (new_Error "Failed to submit lost item: 500 - boom"))
  /\ (forall e,
      network (request (LOST eps)) = Rejected e ->
      run network (submitLostItem base eps Json payload)
      = ([request (LOST eps)], Rejected e))
  /\ (forall e,
      network (request (FOUND eps)) = Rejected e ->
      run network (submitFoundItem base eps Json payload)
      = ([request (FOUND eps)], Rejected e))
  /\ (forall e message, is_TypeError e = true -> e <> new_Error message)
  /\ fst (run network (submitLostItem base eps Json payload)) = [request (LOST eps)]
  /\ fst (run network (submitFoundItem base eps Json payload)) = [request (FOUND eps)].
Proof.
  intros request body_text.
  unfold submitLostItem, submitFoundItem. cbn [run fst snd]. fold (request (LOST eps)).
  fold (request (FOUND eps)).
  repeat split.
  - intros response -> Hok. cbn [await]. rewrite Hok. cbn [negb].
    exists ("Failed to submit lost item: " ++ of_N (status response)
              ++ " - " ++ body_text response).
    split; [| apply failure_message_includes].
    unfold body_text, promise_catch, await. destruct (text response); reflexivity.
  - intros response -> Hok. cbn [await]. rewrite Hok. cbn [negb].
    exists ("Failed to submit found item: " ++ of_N (status response)
              ++ " - " ++ body_text response).
    split; [| apply failure_message_includes].
    unfold body_text, promise_catch, await. destruct (text response); reflexivity.
  - intros response -> Hok Hst Htx. cbn [await]. rewrite Hok, Hst, Htx. reflexivity.
  - intros e ->. reflexivity.
  - intros e ->. reflexivity.
  - intros e message He ->. discriminate He.
Qed.

(** C6, as the claim states it, fails when no response is received: the
    rejection of [fetch] comes out of [checkHealth] as it is, not as the
    generic error. *)
Lemma checkHealth_offline_not_generic :
  snd (run Samples.offline (checkHealth Samples.base Samples.endpoints Samples.Body))
  = Rejected (ErrorObject "TypeError" "Network request failed")
  /\ snd (run Samples.offline (checkHealth Samples.base Samples.endpoints Samples.Body))
     <> Rejected (new_Error "Backend is not reachable").
Proof. split; [reflexivity | discriminate]. Qed.

(** C6 (amended). [checkHealth] issues one GET to the health endpoint.
    On any non-success status it is rejected with the one generic error
    [Backend is not reachable], whatever the status and the body are;
    when [fetch] itself is rejected, the rejection is passed on as it
    is. *)
Theorem checkHealth_failure (base : string) (eps : EndpointMap) (Json : Type)
    (network : Request -> settled (Response Json)) :
  let request :=
    {| url := base ++ HEALTH eps; method := GET; body := None; headers := [] |} in
  (forall response,
      network request = Fulfilled response -> ok response = false ->
      run network (checkHealth base eps Json)
      = ([request], Rejected (new_Error "Backend is not reachable")))
  /\ (forall e,
      network request = Rejected e ->
      run network (checkHealth base eps Json) = ([request], Rejected e)).
Proof.
  intros request. unfold checkHealth. cbn [run]. fold request. split.
  - intros response -> Hok. cbn [await]. now rewrite Hok.
  - intros e ->. reflexivity.
Qed.

Lemma checkHealth_failure_witness :
  run Samples.failing (checkHealth Samples.base Samples.endpoints Samples.Body)
  = ([{| url := "https://api.example/health"; method := GET;
         body := None; headers := [] |}],
     Rejected (new_Error "Backend is not reachable")).
Proof.
  exact (proj1 (checkHealth_failure Samples.base Samples.endpoints Samples.Body
                  Samples.failing) _ eq_refl eq_refl).
Defined.

Lemma In_keys_get (formData : FormData) (key : string) :
  In key (keys formData) <-> get formData key <> None.
Proof.
  induction formData as [| [k v] rest IH]; cbn [keys map fst In get].
  - split; [intros [] | intros H; now apply H].
  - destruct (String.eqb_spec k key) as [E | E].
    + split; [discriminate | auto].
    + fold (keys rest). rewrite <- IH. split; [intros [F | F]; [contradiction | exact F] | auto].
Qed.

(** C7, as the claim states it, fails on a payload whose description is
    present and empty: no [description] field is appended. *)
Lemma buildFormData_empty_description_dropped :
  description Samples.payload_empty_description <> None
  /\ ~ In "description" (keys (buildFormData Samples.payload_empty_description)).
Proof.
  split; [discriminate |].
  rewrite In_keys_get. intros H. now apply H.
Qed.

(** C7 (amended). The multipart body holds the file as it is (uri, name
    and type), [title], [location_type] and [time_frame] always, and
    [description] and [location_detail] exactly when the payload field
    is present and not the empty string, with the payload's values; it
    has no other key and no key twice. *)
Theorem buildFormData_fields (payload : SubmitItemPayload) :
  let formData := buildFormData payload in
  let optional (field : option string) :=
    match field with
    | Some d => if truthy d then Some (FormString d) else None
    | None => None
    end in
  get formData "file" = Some (FormFile (file payload))
  /\ get formData "title" = Some (FormString (title payload))
  /\ get formData "location_type" = Some (FormString (locationType payload))
  /\ get formData "time_frame" = Some (FormString (timeFrame payload))
  /\ get formData "description" = optional (description payload)
  /\ get formData "location_detail" = optional (locationDetail payload)
  /\ (In "description" (keys formData)
      <-> exists d, description payload = Some d /\ d <> "")
  /\ (In "location_detail" (keys formData)
      <-> exists d, locationDetail payload = Some d /\ d <> "")
  /\ NoDup (keys formData)
  /\ incl (keys formData)
       ["file"; "title"; "description"; "location_type"; "location_detail";
        "time_frame"].
Proof.
  intros formData optional.
  assert (Hopt : forall field, optional field <> None
                               <-> exists d, field = Some d /\ d <> "").
  { intros [d |]; unfold optional.
    - destruct (truthy d) eqn:T.
      + apply truthy_true in T. split; [eauto | discriminate].
      + apply truthy_false in T. split; [congruence |].
        intros (d' & [= <-] & H). contradiction.
    - split; [congruence | intros (d & [=] & _)]. }
  assert (G : get formData "file" = Some (FormFile (file payload))
              /\ get formData "title" = Some (FormString (title payload))
              /\ get formData "location_type" = Some (FormString (locationType payload))
              /\ get formData "time_frame" = Some (FormString (timeFrame payload))
              /\ get formData "description" = optional (description payload)
              /\ get formData "location_detail" = optional (locationDetail payload)
              /\ NoDup (keys formData)
              /\ incl (keys formData)
                   ["file"; "title"; "description"; "location_type";
                    "location_detail"; "time_frame"]).
  { subst formData optional. unfold buildFormData, append.
    destruct payload as [[u n ty] ti d lt ld tf]. cbn [ItemTypes.file ItemTypes.title
      ItemTypes.description locationType locationDetail timeFrame uri name type].
    destruct d as [d |]; [destruct (truthy d) |];
      (destruct ld as [ld |]; [destruct (truthy ld) |]);
      cbn [app get keys map fst String.eqb Ascii.eqb Bool.eqb];
      repeat split;
      try (repeat constructor; cbn [In]; intuition discriminate);
      try (intros k; cbn [In]; intuition auto). }
  destruct G as (G1 & G2 & G3 & G4 & G5 & G6 & G7 & G8).
  repeat split; try assumption.
  - rewrite In_keys_get, G5. apply Hopt.
  - rewrite In_keys_get, G5. apply Hopt.
  - rewrite In_keys_get, G6. apply Hopt.
  - rewrite In_keys_get, G6. apply Hopt.
Qed.

(** The title is always the second entry of the body. *)
Lemma buildFormData_title (payload : SubmitItemPayload) :
  get (buildFormData payload) "title" = Some (FormString (title payload)).
Proof.
  unfold buildFormData, append.
  destruct (description payload) as [d |]; [destruct (truthy d) |];
    (destruct (locationDetail payload) as [ld |]; [destruct (truthy ld) |]);
    reflexivity.
Qed.

Lemma buildImageUrl_spec_witness :
  buildImageUrl Samples.base "http:\\cdn\a.png" = "http://cdn/a.png".
Proof.
  apply (buildImageUrl_spec Samples.base "http:\\cdn\a.png");
    [discriminate | left; reflexivity].
Defined.

Lemma submit_failure_modes_witness :
  exists message,
    run Samples.failing
      (submitLostItem Samples.base Samples.endpoints Samples.Body
         Samples.payload_empty_description)
    = ([{| url := "https://api.example/api/lost"; method := POST;
           body := Some (buildFormData Samples.payload_empty_description);
           headers := [("Content-Type", "multipart/form-data")] |}],
       Rejected (new_Error message))
    /\ includes message "500" /\ includes message "boom".
Proof.
  exact (proj1 (submit_failure_modes Samples.base Samples.endpoints Samples.Body
                  Samples.payload_empty_description Samples.failing)
           _ eq_refl eq_refl).
Defined.
End ClientFacts.

(** ** The report screen *)

Module ScreenFacts.
Import ItemTypes Async JsString Client ReportItemScreen ClientFacts.
Local Open Scope string_scope.

Lemma run_bind {Json A B : Type} (network : Request -> settled (Response Json))
    (p : io Json A) (f : A -> io Json B) :
  run network (bind p f)
  = (fst (run network p) ++ fst (run network (f (snd (run network p)))),
     snd (run network (f (snd (run network p)))))%list.
Proof.
  induction p as [a | req k IH]; cbn [bind run fst snd app].
  - now destruct (run network (f a)).
  - rewrite IH. destruct (run network (k (network req))) as [log a].
    cbn [fst snd]. now destruct (run network (f a)).
Qed.

Section Screen.

Variable base : string.
Variable eps : EndpointMap.
Variable Json : Type.
Variable response_matches : Json -> settled (list MatchResult).
Variable t : string -> string.
Variable network : Request -> settled (Response Json).

(** The call [handleSubmit] makes once the form is valid. *)
Let submit (st : State) (image : ImageFile) : io Json (settled Json) :=
  (if isLost st then submitLostItem base eps Json
   else submitFoundItem base eps Json) (submitPayload st image).

(** What the [try] block comes to: the matches read from the response of
    a fulfilled call, or what was thrown, by the call or by the read. *)
Let tried (st : State) (image : ImageFile) : settled (list MatchResult) :=
  await (snd (run network (submit st image))) response_matches.

Let error_text (err : thrown) : string :=
  match err with
  | ErrorObject _ message => message
  | NotAnError => t "error_generic"
  end.

Let updates_after (outcome : settled (list MatchResult)) : list StateUpdate :=
  [call_setIsSubmitting true; call_setError None]
  ++ match outcome with
     | Fulfilled matches =>
         [call_setMatches matches; call_setShowSuccessModal true;
          call_setFormData emptyForm]
     | Rejected err => [call_setError (Some (error_text err))]
     end
  ++ [call_setIsSubmitting false].

Lemma handleSubmit_run (st : State) :
  run network (handleSubmit base eps response_matches t st)
  = (fst (run network (handleSubmitUpdates base eps response_matches t st)),
     applyUpdates
       (snd (run network (handleSubmitUpdates base eps response_matches t st))) st).
Proof.
  unfold handleSubmit. rewrite run_bind. cbn [run fst snd]. now rewrite app_nil_r.
Qed.

(** With a valid form, [handleSubmit] makes the one call and then the
    setter calls that the outcome of the [try] block decides. *)
Lemma handleSubmitUpdates_valid (st : State) (image : ImageFile) :
  form_image (formData st) = Some image ->
  form_where (formData st) <> "" -> form_when (formData st) <> "" ->
  run network (handleSubmitUpdates base eps response_matches t st)
  = (fst (run network (submit st image)), updates_after (tried st image)).
Proof.
  intros Hi Hw Hn. unfold handleSubmitUpdates. rewrite Hi.
  apply truthy_true in Hw, Hn. rewrite Hw, Hn. cbn [negb].
  rewrite run_bind. unfold submit, tried, updates_after, error_text, submit.
  cbn [run fst snd]. now rewrite app_nil_r.
Qed.

Let after (st : State) (outcome : settled (list MatchResult)) : State :=
  match outcome with
  | Fulfilled matches =>
      {| reportType := reportType st; formData := emptyForm;
         matches := matches; isSubmitting := false;
         showSuccessModal := true; error := None |}
  | Rejected err =>
      {| reportType := reportType st; formData := formData st;
         matches := ReportItemScreen.matches st; isSubmitting := false;
         showSuccessModal := showSuccessModal st;
         error := Some (error_text err) |}
  end.

Lemma handleSubmit_valid (st : State) (image : ImageFile) :
  form_image (formData st) = Some image ->
  form_where (formData st) <> "" -> form_when (formData st) <> "" ->
  run network (handleSubmit base eps response_matches t st)
  = (fst (run network (submit st image)), after st (tried st image)).
Proof.
  intros Hi Hw Hn. rewrite handleSubmit_run.
  rewrite (handleSubmitUpdates_valid st image Hi Hw Hn). cbn [fst snd].
  f_equal. unfold updates_after, after. destruct (tried st image); reflexivity.
Qed.

(** With an invalid form there is no call and the one setter call is that
    of the error. *)
Lemma handleSubmitUpdates_invalid (st : State) :
  form_image (formData st) = None \/ form_where (formData st) = ""
  \/ form_when (formData st) = "" ->
  exists key,
    run network (handleSubmitUpdates base eps response_matches t st)
    = ([], [call_setError (Some (t key))]).
Proof.
  intros H. unfold handleSubmitUpdates.
  destruct (form_image (formData st)) as [image |]; [| eexists; reflexivity].
  destruct (truthy (form_where (formData st))) eqn:Hw; [| eexists; reflexivity].
  destruct (truthy (form_when (formData st))) eqn:Hn; [| eexists; reflexivity].
  apply truthy_true in Hw, Hn. destruct H as [H | [H | H]]; congruence.
Qed.

Lemma handleSubmit_invalid (st : State) :
  form_image (formData st) = None \/ form_where (formData st) = ""
  \/ form_when (formData st) = "" ->
  exists key,
    run network (handleSubmit base eps response_matches t st)
    = ([], setError (Some (t key)) st).
Proof.
  intros H. destruct (handleSubmitUpdates_invalid st H) as [key Hrun].
  exists key. rewrite handleSubmit_run, Hrun. reflexivity.
Qed.

Lemma form_valid_dec (st : State) :
  (exists image, form_image (formData st) = Some image
                 /\ form_where (formData st) <> ""
                 /\ form_when (formData st) <> "")
  \/ (form_image (formData st) = None \/ form_where (formData st) = ""
      \/ form_when (formData st) = "").
Proof.
  destruct (form_image (formData st)) as [image |]; [| auto].
  destruct (string_dec (form_where (formData st)) ""); [auto |].
  destruct (string_dec (form_when (formData st)) ""); [auto |].
  left. eauto.
Qed.



(** C10. [handleSubmit] issues a request only when the image, the
    location and the time frame are all there; each missing field ends
    it at once with the error of that field.  The title of an issued
    request is not empty: it is the description, or [Lost item at] /
    [Found item at] and the location when the description is empty. *)
Theorem handleSubmit_validation (st : State) :
  let result := run network (handleSubmit base eps response_matches t st) in
  (form_image (formData st) = None ->
   result = ([], setError (Some (t "error_image_required")) st))
  /\ (form_image (formData st) <> None -> form_where (formData st) = "" ->
      result = ([], setError (Some (t "error_location_required")) st))
  /\ (form_image (formData st) <> None -> form_where (formData st) <> "" ->
      form_when (formData st) = "" ->
      result = ([], setError (Some (t "error_time_required")) st))
  /\ (forall req, In req (fst result) ->
      form_image (formData st) <> None
      /\ form_where (formData st) <> "" /\ form_when (formData st) <> ""
      /\ exists formData' title,
           body req = Some formData'
           /\ get formData' "title" = Some (FormString title)
           /\ title <> ""
           /\ title = if truthy (form_description (formData st))
                      then form_description (formData st)
                      else (if isLost st then "Lost" else "Found")
                             ++ " item at " ++ form_where (formData st)).
Proof.
  intros result. split; [| split; [| split]].
  - intros Hi. subst result. rewrite handleSubmit_run.
    unfold handleSubmitUpdates. now rewrite Hi.
  - intros Hi Hw. subst result. rewrite handleSubmit_run.
    unfold handleSubmitUpdates.
    destruct (form_image (formData st)); [| contradiction].
    apply truthy_false in Hw. now rewrite Hw.
  - intros Hi Hw Hn. subst result. rewrite handleSubmit_run.
    unfold handleSubmitUpdates.
    destruct (form_image (formData st)); [| contradiction].
    apply truthy_true in Hw. apply truthy_false in Hn. now rewrite Hw, Hn.
  - intros req Hin.
    destruct (form_valid_dec st) as [(image & Hi & Hw & Hn) | Hbad].
    + split; [congruence |]. split; [exact Hw |]. split; [exact Hn |].
      subst result. rewrite (handleSubmit_valid st image Hi Hw Hn) in Hin.
      cbn [fst] in Hin.
      exists (buildFormData (submitPayload st image)),
             (title (submitPayload st image)).
      split.
      { unfold submit in Hin. destruct (isLost st);
          cbn [submitLostItem submitFoundItem run fst In] in Hin;
          destruct Hin as [<- | []]; reflexivity. }
      split; [apply (buildFormData_title (submitPayload st image)) |].
      cbn [title submitPayload]. unfold or_else.
      destruct (truthy (form_description (formData st))) eqn:Hd.
      * split; [now apply truthy_true | reflexivity].
      * split; [destruct (isLost st); discriminate | reflexivity].
    + destruct (handleSubmit_invalid st Hbad) as [key Hrun]. subst result.
      rewrite Hrun in Hin. destruct Hin.
Qed.

End Screen.

Lemma handleSubmit_validation_witness :
  run Samples.matching
    (handleSubmit Samples.base Samples.endpoints Samples.body_matches
       Samples.translate Samples.shown)
  = ([], setError (Some "error_image_required") Samples.shown).
Proof.
  exact (proj1 (handleSubmit_validation Samples.base Samples.endpoints
                  Samples.Body Samples.body_matches Samples.translate Samples.matching
                  Samples.shown) eq_refl).
Defined.


(** A success answer with the body [null]: the call is fulfilled, reading
    [matches] throws, and the screen ends in the error state with the
    form, the matches and the modal as they were. *)
Example handleSubmit_null_body :
  run Samples.answering_null
    (handleSubmit Samples.base Samples.endpoints Samples.nullable_matches
       Samples.translate Samples.ready)
  = ([{| url := "https://api.example/api/lost"; method := POST;
         body := Some (buildFormData (submitPayload Samples.ready Samples.photo));
         headers := [("Content-Type", "multipart/form-data")] |}],
     {| reportType := lost; formData := Samples.filledForm; matches := [];
        isSubmitting := false; showSuccessModal := false;
        error := Some "Cannot read property 'matches' of null" |}).
Proof. reflexivity. Qed.
End ScreenFacts.

(** ** The other outcomes of the REST calls *)

Module ClientContracts.
Import ItemTypes Async JsString Client ClientFacts.
Local Open Scope string_scope.

Lemma prefix_refl_append (p rest : string) : String.prefix p (p ++ rest) = true.
Proof.
  induction p as [| a p IH]; cbn [String.append String.prefix].
  - now destruct rest.
  - destruct (ascii_dec a a) as [_ | N]; [exact IH | now elim N].
Qed.

Lemma startsWith_append (p rest : string) : startsWith (p ++ rest) p = true.
Proof. apply prefix_refl_append. Qed.

Section Calls.

Variable base : string.
Variable eps : EndpointMap.
Variable Json : Type.
Variable network : Request -> settled (Response Json).

(** A submission that is answered with a success status issues its one
    POST and settles to what [response.json()] settles to: the parsed
    body, or the parser's rejection as it is; the status and the body
    text play no part. *)
Theorem submit_success (payload : SubmitItemPayload) (endpoint : ItemType)
    (response : Response Json) :
  let submitFn := match endpoint with
                  | lost => submitLostItem base eps Json
                  | found => submitFoundItem base eps Json
                  end in
  let request :=
    {| url := base ++ match endpoint with lost => LOST eps | found => FOUND eps end;
       method := POST; body := Some (buildFormData payload);
       headers := [("Content-Type", "multipart/form-data")] |} in
  network request = Fulfilled response -> ok response = true ->
  run network (submitFn payload) = ([request], json response).
Proof.
  intros submitFn request Hnet Hok.
  subst submitFn request. destruct endpoint;
    unfold submitLostItem, submitFoundItem; cbn [run];
    rewrite Hnet; cbn [await]; rewrite Hok; cbn [negb];
    destruct (json response); reflexivity.
Qed.

(** [fetchHistory] issues one GET to the history endpoint, without body
    or headers, whatever the backend answers.  A success answer settles
    to what [response.json()] settles to; a non-success status gives an
    [Error] whose message starts with [Failed to fetch history: ] and
    holds the status and the body text ([Unknown error] when it cannot
    be read); a rejection of [fetch] is passed on as it is. *)
Theorem fetchHistory_outcomes :
  let request :=
    {| url := base ++ HISTORY eps; method := GET; body := None; headers := [] |} in
  let body_text (response : Response Json) :=
    match text response with Fulfilled s => s | Rejected _ => "Unknown error" end in
  fst (run network (fetchHistory base eps Json)) = [request]
  /\ (forall response,
      network request = Fulfilled response -> ok response = true ->
      snd (run network (fetchHistory base eps Json)) = json response)
  /\ (forall response,
      network request = Fulfilled response -> ok response = false ->
      exists message,
        snd (run network (fetchHistory base eps Json)) = Rejected (new_Error message)
        /\ startsWith message "Failed to fetch history: " = true
        /\ includes message (of_N (status response))
        /\ includes message (body_text response))
  /\ (forall e,
      network request = Rejected e ->
      snd (run network (fetchHistory base eps Json)) = Rejected e).
Proof.
  intros request body_text. unfold fetchHistory. cbn [run fst snd]. fold request.
  split; [reflexivity |]. split; [| split].
  - intros response -> Hok. cbn [await]. rewrite Hok. cbn [negb].
    destruct (json response); reflexivity.
  - intros response -> Hok. cbn [await]. rewrite Hok. cbn [negb].
    exists ("Failed to fetch history: " ++ of_N (status response)
              ++ " - " ++ body_text response).
    split; [unfold body_text, promise_catch, await;
            destruct (text response); reflexivity |].
    split; [apply startsWith_append | apply failure_message_includes].
  - intros e ->. reflexivity.
Qed.

(** [resetDatabase] issues one DELETE to the reset endpoint, without body
    or headers, whatever the backend answers.  A success answer settles
    to what [response.json()] settles to; a non-success status gives an
    [Error] whose message starts with [Failed to reset database: ] and
    holds the status and the body text ([Unknown error] when it cannot
    be read); a rejection of [fetch] is passed on as it is. *)
Theorem resetDatabase_outcomes :
  let request :=
    {| url := base ++ RESET eps; method := DELETE; body := None; headers := [] |} in
  let body_text (response : Response Json) :=
    match text response with Fulfilled s => s | Rejected _ => "Unknown error" end in
  fst (run network (resetDatabase base eps Json)) = [request]
  /\ (forall response,
      network request = Fulfilled response -> ok response = true ->
      snd (run network (resetDatabase base eps Json)) = json response)
  /\ (forall response,
      network request = Fulfilled response -> ok response = false ->
      exists message,
        snd (run network (resetDatabase base eps Json)) = Rejected (new_Error message)
        /\ startsWith message "Failed to reset database: " = true
        /\ includes message (of_N (status response))
        /\ includes message (body_text response))
  /\ (forall e,
      network request = Rejected e ->
      snd (run network (resetDatabase base eps Json)) = Rejected e).
Proof.
  intros request body_text. unfold resetDatabase. cbn [run fst snd]. fold request.
  split; [reflexivity |]. split; [| split].
  - intros response -> Hok. cbn [await]. rewrite Hok. cbn [negb].
    destruct (json response); reflexivity.
  - intros response -> Hok. cbn [await]. rewrite Hok. cbn [negb].
    exists ("Failed to reset database: " ++ of_N (status response)
              ++ " - " ++ body_text response).
    split; [unfold body_text, promise_catch, await;
            destruct (text response); reflexivity |].
    split; [apply startsWith_append | apply failure_message_includes].
  - intros e ->. reflexivity.
Qed.

(** [checkHealth] never looks at the status code or the body text: two
    backends whose answers agree on [ok] and on what [json()] gives make
    it settle alike; and a success answer settles to what [json()]
    settles to. *)
Theorem checkHealth_reads_ok_and_json
    (network' : Request -> settled (Response Json)) :
  let request :=
    {| url := base ++ HEALTH eps; method := GET; body := None; headers := [] |} in
  (forall response response',
      network request = Fulfilled response ->
      network' request = Fulfilled response' ->
      ok response = ok response' -> json response = json response' ->
      run network (checkHealth base eps Json)
      = run network' (checkHealth base eps Json))
  /\ (forall response,
      network request = Fulfilled response -> ok response = true ->
      run network (checkHealth base eps Json) = ([request], json response)).
Proof.
  intros request. unfold checkHealth. cbn [run]. fold request. split.
  - intros response response' -> -> Hok Hjson. cbn [await].
    now rewrite Hok, Hjson.
  - intros response -> Hok. cbn [await]. now rewrite Hok.
Qed.

End Calls.

Lemma submit_success_witness :
  run Samples.matching
    (submitLostItem Samples.base Samples.endpoints Samples.Body
       Samples.payload_empty_description)
  = ([{| url := "https://api.example/api/lost"; method := POST;
         body := Some (buildFormData Samples.payload_empty_description);
         headers := [("Content-Type", "multipart/form-data")] |}],
     Fulfilled [Samples.resultA; Samples.resultB]).
Proof.
  exact (submit_success Samples.base Samples.endpoints Samples.Body
           Samples.matching Samples.payload_empty_description lost _
           eq_refl eq_refl).
Defined.

Lemma fetchHistory_outcomes_witness :
  exists message,
    snd (run Samples.failing (fetchHistory Samples.base Samples.endpoints Samples.Body))
    = Rejected (new_Error message)
    /\ startsWith message "Failed to fetch history: " = true
    /\ includes message "500" /\ includes message "boom".
Proof.
  exact (proj1 (proj2 (proj2 (fetchHistory_outcomes Samples.base Samples.endpoints
                                Samples.Body Samples.failing)))
           _ eq_refl eq_refl).
Defined.

Lemma resetDatabase_outcomes_witness :
  snd (run Samples.offline (resetDatabase Samples.base Samples.endpoints Samples.Body))
  = Rejected (ErrorObject "TypeError" "Network request failed").
Proof.
  exact (proj2 (proj2 (proj2 (resetDatabase_outcomes Samples.base Samples.endpoints
                                Samples.Body Samples.offline)))
           _ eq_refl).
Defined.

Lemma checkHealth_reads_ok_and_json_witness :
  run Samples.matching (checkHealth Samples.base Samples.endpoints Samples.Body)
  = ([{| url := "https://api.example/health"; method := GET;
         body := None; headers := [] |}],
     Fulfilled [Samples.resultA; Samples.resultB]).
Proof.
  exact (proj2 (checkHealth_reads_ok_and_json Samples.base Samples.endpoints
                  Samples.Body Samples.matching Samples.matching)
           _ eq_refl eq_refl).
Defined.

End ClientContracts.

(** ** Image URLs *)

Module UrlFacts.
Import JsString Client ClientFacts ClientContracts.
Local Open Scope string_scope.

Lemma replace_all_append (c d : ascii) (a b : string) :
  replace_all c d (a ++ b) = replace_all c d a ++ replace_all c d b.
Proof. induction a as [| x a IH]; cbn; [reflexivity | now rewrite IH]. Qed.

Lemma replace_all_idempotent (s : string) :
  replace_all backslash slash (replace_all backslash slash s)
  = replace_all backslash slash s.
Proof.
  induction s as [| a s IH]; cbn [replace_all]; [reflexivity |].
  rewrite IH. f_equal.
  destruct (Ascii.eqb a backslash) eqn:E; [reflexivity | now rewrite E].
Qed.

(** A string without backslash is one that the replacement leaves alone. *)
Lemma no_backslash_fixed (s : string) :
  (forall i, String.get i s <> Some backslash)
  <-> replace_all backslash slash s = s.
Proof.
  split.
  - induction s as [| a s IH]; intros H; cbn [replace_all]; [reflexivity |].
    rewrite IH by (intros i; apply (H (S i))).
    destruct (Ascii.eqb_spec a backslash) as [-> | _]; [| reflexivity].
    now elim (H 0%nat).
  - intros E i Hi. pose proof (replace_all_get backslash slash s i) as G.
    rewrite E, Hi in G. cbn in G. discriminate G.
Qed.

Lemma prefix_append (p s rest : string) :
  String.prefix p s = true -> String.prefix p (s ++ rest) = true.
Proof.
  revert s. induction p as [| a p IH]; intros s; cbn [String.prefix].
  - intros _. now destruct (s ++ rest).
  - destruct s as [| b s]; [discriminate |]. cbn [String.append String.prefix].
    destruct (ascii_dec a b); [apply IH | discriminate].
Qed.

Lemma absolute_not_empty (s : string) :
  startsWith s "http://" = true \/ startsWith s "https://" = true -> s <> "".
Proof. intros [H | H] ->; discriminate H. Qed.

(** What [buildImageUrl] returns for a path that is not empty. *)
Lemma buildImageUrl_cases (base p : string) :
  p <> "" ->
  let normalized := replace_all backslash slash p in
  ((startsWith normalized "http://" = true \/ startsWith normalized "https://" = true)
   /\ buildImageUrl base p = normalized)
  \/ (startsWith normalized "/" = true /\ buildImageUrl base p = base ++ normalized)
  \/ (buildImageUrl base p = base ++ "/" ++ normalized).
Proof.
  intros Hp normalized. unfold buildImageUrl. fold normalized.
  apply truthy_true in Hp. rewrite Hp. cbn [negb].
  destruct (startsWith normalized "http://") eqn:H1; [left; auto |].
  destruct (startsWith normalized "https://") eqn:H2; [left; auto |].
  cbn [orb]. right.
  destruct (startsWith normalized "/") eqn:H3; [left; auto | right; reflexivity].
Qed.

(** With an absolute base URL that has no backslash, a built URL is left
    as it is when it is passed to [buildImageUrl] again. *)
Theorem buildImageUrl_idempotent (base p : string) :
  startsWith base "http://" = true \/ startsWith base "https://" = true ->
  (forall i, String.get i base <> Some backslash) ->
  buildImageUrl base (buildImageUrl base p) = buildImageUrl base p.
Proof.
  intros Habs Hbase. apply no_backslash_fixed in Hbase.
  destruct (string_dec p "") as [-> | Hp]; [reflexivity |].
  assert (Hfix : forall r,
             replace_all backslash slash r = r ->
             startsWith r "http://" = true \/ startsWith r "https://" = true ->
             buildImageUrl base r = r).
  { intros r Hr Ha. unfold buildImageUrl.
    pose proof (absolute_not_empty r Ha) as Hne. apply truthy_true in Hne.
    rewrite Hne, Hr. cbn [negb].
    destruct Ha as [Ha | Ha]; rewrite Ha; [reflexivity | now rewrite orb_true_r]. }
  assert (Hstart : forall rest,
             startsWith (base ++ rest) "http://" = true
             \/ startsWith (base ++ rest) "https://" = true).
  { intros rest. destruct Habs as [H | H]; [left | right];
      apply prefix_append; exact H. }
  destruct (buildImageUrl_cases base p Hp) as [[Ha E] | [[_ E] | E]]; rewrite E.
  - apply Hfix; [apply replace_all_idempotent | exact Ha].
  - apply Hfix; [| apply Hstart].
    now rewrite replace_all_append, Hbase, replace_all_idempotent.
  - apply Hfix; [| apply Hstart].
    now rewrite !replace_all_append, Hbase, replace_all_idempotent.
Qed.

Lemma buildImageUrl_idempotent_witness :
  buildImageUrl Samples.base (buildImageUrl Samples.base "uploads\a.png")
  = buildImageUrl Samples.base "uploads\a.png".
Proof.
  apply buildImageUrl_idempotent; [right; reflexivity |].
  apply no_backslash_fixed. reflexivity.
Defined.

(** For a path that is not empty the built URL is not empty, it is either
    absolute or the base URL followed by a [/], and it has no backslash
    when the base URL has none. *)
Theorem buildImageUrl_shape (base p : string) :
  p <> "" ->
  buildImageUrl base p <> ""
  /\ (startsWith (buildImageUrl base p) "http://" = true
      \/ startsWith (buildImageUrl base p) "https://" = true
      \/ exists rest, buildImageUrl base p = base ++ "/" ++ rest)
  /\ ((forall i, String.get i base <> Some backslash) ->
      forall i, String.get i (buildImageUrl base p) <> Some backslash).
Proof.
  intros Hp.
  assert (Hn : replace_all backslash slash p <> "").
  { destruct p; [contradiction | discriminate]. }
  destruct (buildImageUrl_cases base p Hp) as [[Ha E] | [[Hs E] | E]]; rewrite E.
  - split; [exact Hn |]. split; [tauto |].
    intros _. apply no_backslash_fixed, replace_all_idempotent.
  - destruct (replace_all backslash slash p) as [| a n] eqn:En; [contradiction |].
    assert (a = slash) as ->.
    { unfold startsWith in Hs. cbn [String.prefix] in Hs.
      destruct (ascii_dec "/" a) as [<- |]; [reflexivity | discriminate]. }
    split; [destruct base; discriminate |].
    split; [right; right; exists n; reflexivity |].
    intros Hb. apply no_backslash_fixed. apply no_backslash_fixed in Hb.
    rewrite replace_all_append, Hb. f_equal.
    rewrite <- En. apply replace_all_idempotent.
  - split; [destruct base; discriminate |].
    split; [right; right; eexists; reflexivity |].
    intros Hb. apply no_backslash_fixed. apply no_backslash_fixed in Hb.
    now rewrite !replace_all_append, Hb, replace_all_idempotent.
Qed.

Lemma buildImageUrl_shape_witness :
  buildImageUrl Samples.base "\uploads\a.png" <> ""
  /\ (startsWith (buildImageUrl Samples.base "\uploads\a.png") "http://" = true
      \/ startsWith (buildImageUrl Samples.base "\uploads\a.png") "https://" = true
      \/ exists rest, buildImageUrl Samples.base "\uploads\a.png"
                      = Samples.base ++ "/" ++ rest)
  /\ ((forall i, String.get i Samples.base <> Some backslash) ->
      forall i, String.get i (buildImageUrl Samples.base "\uploads\a.png")
                <> Some backslash).
Proof.
  apply buildImageUrl_shape. discriminate.
Defined.

End UrlFacts.

(** ** The submission flow *)

Module SubmitFlow.
Import ItemTypes Async JsString Client ReportItemScreen ClientFacts ScreenFacts.
Local Open Scope string_scope.

(** The entries of a body, read from the payload. *)
Lemma buildFormData_get (payload : SubmitItemPayload) :
  let optional (field : option string) :=
    match field with
    | Some d => if truthy d then Some (FormString d) else None
    | None => None
    end in
  get (buildFormData payload) "file" = Some (FormFile (file payload))
  /\ get (buildFormData payload) "location_type"
     = Some (FormString (locationType payload))
  /\ get (buildFormData payload) "time_frame" = Some (FormString (timeFrame payload))
  /\ get (buildFormData payload) "description" = optional (description payload)
  /\ get (buildFormData payload) "location_detail" = optional (locationDetail payload).
Proof.
  intros optional. subst optional. unfold buildFormData, append.
  destruct payload as [[u n ty] ti d lt ld tf].
  cbn [ItemTypes.file ItemTypes.title ItemTypes.description locationType
       locationDetail timeFrame uri name type].
  destruct d as [d |]; [destruct (truthy d) |];
    (destruct ld as [ld |]; [destruct (truthy ld) |]);
    repeat split.
Qed.

Lemma or_undefined_optional (s : string) :
  match or_undefined s with
  | Some d => if truthy d then Some (FormString d) else None
  | None => None
  end = if truthy s then Some (FormString s) else None.
Proof. unfold or_undefined. destruct (truthy s) eqn:E; [now rewrite E | reflexivity]. Qed.

Section Flow.

Variable base : string.
Variable eps : EndpointMap.
Variable Json : Type.
Variable response_matches : Json -> settled (list MatchResult).
Variable t : string -> string.
Variable network : Request -> settled (Response Json).

Let handle (st : State) : list Request * State :=
  run network (handleSubmit base eps response_matches t st).

Lemma submit_log (st : State) (image : ImageFile) :
  fst (run network
         ((if isLost st then submitLostItem base eps Json
           else submitFoundItem base eps Json) (submitPayload st image)))
  = [{| url := base ++ (if isLost st then LOST eps else FOUND eps);
        method := POST;
        body := Some (buildFormData (submitPayload st image));
        headers := [("Content-Type", "multipart/form-data")] |}].
Proof. destruct (isLost st); reflexivity. Qed.

(** With a valid form, [handleSubmit] sends one POST, to the lost endpoint
    for a lost report and to the found endpoint for a found one, and the
    body carries the form: the image as the file, the location as
    [location_type], the time frame as [time_frame], and the description
    and the specific place under [description] and [location_detail]
    when they are not empty (no such entry when they are). *)
Theorem handleSubmit_request (st : State) (image : ImageFile) :
  form_image (formData st) = Some image ->
  form_where (formData st) <> "" -> form_when (formData st) <> "" ->
  exists formData',
    fst (handle st)
    = [{| url := base ++ (match reportType st with
                          | lost => LOST eps
                          | found => FOUND eps
                          end);
          method := POST; body := Some formData';
          headers := [("Content-Type", "multipart/form-data")] |}]
    /\ get formData' "file" = Some (FormFile image)
    /\ get formData' "location_type" = Some (FormString (form_where (formData st)))
    /\ get formData' "time_frame" = Some (FormString (form_when (formData st)))
    /\ get formData' "description"
       = (if String.eqb (form_description (formData st)) "" then None
          else Some (FormString (form_description (formData st))))
    /\ get formData' "location_detail"
       = (if String.eqb (form_specificPlace (formData st)) "" then None
          else Some (FormString (form_specificPlace (formData st)))).
Proof.
  intros Hi Hw Hn. exists (buildFormData (submitPayload st image)).
  unfold handle. rewrite (handleSubmit_valid base eps Json response_matches t network
                            st image Hi Hw Hn).
  cbn [fst]. rewrite submit_log.
  split; [unfold isLost; destruct (reportType st); reflexivity |].
  destruct (buildFormData_get (submitPayload st image)) as (G1 & G2 & G3 & G4 & G5).
  rewrite G1, G2, G3, G4, G5. cbn [file locationType timeFrame description
                                   locationDetail submitPayload].
  rewrite !or_undefined_optional. unfold truthy.
  repeat split;
    [destruct (String.eqb (form_description (formData st)) "")
    | destruct (String.eqb (form_specificPlace (formData st)) "")]; reflexivity.
Qed.

(** [handleSubmit] never issues more than one request.  It ends without
    an error message exactly when the form was valid, the call was
    fulfilled and the matches of the response could be read; and then the
    form is empty, so that submitting again at once issues no request and
    asks for the image. *)
Theorem handleSubmit_single_attempt (st : State) :
  (List.length (fst (handle st)) <= 1)%nat
  /\ (error (snd (handle st)) = None
      <-> exists image response found,
            form_image (formData st) = Some image
            /\ form_where (formData st) <> "" /\ form_when (formData st) <> ""
            /\ snd (run network
                      ((if isLost st then submitLostItem base eps Json
                        else submitFoundItem base eps Json)
                         (submitPayload st image))) = Fulfilled response
            /\ response_matches response = Fulfilled found)
  /\ (error (snd (handle st)) = None ->
      handle (snd (handle st))
      = ([], setError (Some (t "error_image_required")) (snd (handle st)))).
Proof.
  unfold handle.
  destruct (form_valid_dec st) as [(image & Hi & Hw & Hn) | Hbad].
  - rewrite (handleSubmit_valid base eps Json response_matches t network st image Hi Hw Hn).
    cbn [fst snd]. rewrite submit_log.
    split; [cbn; auto |].
    destruct (snd (run network _)) as [response | err] eqn:Hcall; cbn [await].
    + destruct (response_matches response) as [found | err] eqn:Hread; cbn [error].
      * split; [| intros _; reflexivity].
        split; [intros _; exists image, response, found; auto | reflexivity].
      * split; [| discriminate].
        split; [discriminate |].
        intros (image' & response' & found & Hi' & _ & _ & H & Hr).
        rewrite Hi in Hi'. injection Hi' as <-. rewrite Hcall in H.
        injection H as <-. rewrite Hread in Hr. discriminate Hr.
    + cbn [error]. split; [| discriminate].
      split; [discriminate |].
      intros (image' & response & found & Hi' & _ & _ & H & _).
      rewrite Hi in Hi'. injection Hi' as <-. rewrite Hcall in H. discriminate H.
  - destruct (handleSubmit_invalid base eps Json response_matches t network st Hbad)
      as [key Hrun].
    rewrite Hrun. cbn [fst snd error setError].
    split; [cbn; auto |]. split; [| discriminate].
    split; [discriminate |].
    intros (image & response & found & Hi & Hw & Hn & _).
    destruct Hbad as [H | [H | H]]; congruence.
Qed.

(** The submit button's own check agrees with the validation of
    [handleSubmit]: [isFormValid] holds exactly when a press issues a
    request, and a disabled button means that a submission is under way
    or that a press would issue none. *)
Theorem isFormValid_iff_request (st : State) :
  (isFormValid st = true <-> fst (handle st) <> [])
  /\ (submitDisabled st = true
      <-> isSubmitting st = true \/ fst (handle st) = []).
Proof.
  assert (A : isFormValid st = true <-> fst (handle st) <> []).
  { unfold handle, isFormValid.
    destruct (form_valid_dec st) as [(image & Hi & Hw & Hn) | Hbad].
    - rewrite (handleSubmit_valid base eps Json response_matches t network
                 st image Hi Hw Hn).
      cbn [fst]. rewrite submit_log, Hi.
      apply truthy_true in Hw, Hn. rewrite Hw, Hn.
      split; [discriminate | reflexivity].
    - destruct (handleSubmit_invalid base eps Json response_matches t network st Hbad)
        as [key Hrun].
      rewrite Hrun. cbn [fst]. split; [| intros H; now elim H].
      intros H. exfalso.
      destruct (form_image (formData st)); [| discriminate].
      apply andb_true_iff in H as [Hw Hn]. apply truthy_true in Hw, Hn.
      destruct Hbad as [H | [H | H]]; congruence. }
  split; [exact A |].
  unfold submitDisabled. rewrite orb_true_iff, negb_true_iff.
  destruct (isFormValid st) eqn:V.
  - assert (fst (handle st) <> []) by now apply A.
    split; intros [H' | H']; auto; try discriminate; contradiction.
  - assert (fst (handle st) = []).
    { destruct (fst (handle st)) eqn:E; [reflexivity |].
      assert (false = true) by (apply A; discriminate). discriminate. }
    tauto.
Qed.

End Flow.

Lemma handleSubmit_request_witness :
  exists formData',
    fst (run Samples.matching
           (handleSubmit Samples.base Samples.endpoints Samples.body_matches
              Samples.translate Samples.ready))
    = [{| url := "https://api.example/api/lost";
          method := POST; body := Some formData';
          headers := [("Content-Type", "multipart/form-data")] |}]
    /\ get formData' "file" = Some (FormFile Samples.photo)
    /\ get formData' "location_type" = Some (FormString "Mall")
    /\ get formData' "time_frame" = Some (FormString "Today")
    /\ get formData' "description" = None
    /\ get formData' "location_detail" = None.
Proof.
  apply (handleSubmit_request Samples.base Samples.endpoints Samples.Body
           Samples.body_matches Samples.translate Samples.matching
           Samples.ready Samples.photo); [reflexivity | discriminate | discriminate].
Defined.

Lemma handleSubmit_single_attempt_witness :
  run Samples.matching
    (handleSubmit Samples.base Samples.endpoints Samples.body_matches
       Samples.translate Samples.shown)
  = ([], setError (Some "error_image_required") Samples.shown).
Proof.
  exact (proj2 (proj2 (handleSubmit_single_attempt Samples.base Samples.endpoints
                         Samples.Body Samples.body_matches Samples.translate
                         Samples.matching Samples.ready)) eq_refl).
Defined.


(** The request that [handleSubmit] issues depends on the form fields and
    the report type only: not on the submitting flag (a press during a
    running submission sends the report again), not on the error, the
    matches or the modal, and not on what the backend answers.  So after
    a rejected call, which leaves the form as it was, the next
    [handleSubmit] sends the same request again. *)
Theorem handleSubmit_resend (base : string) (eps : EndpointMap) (Json : Type)
    (response_matches : Json -> settled (list MatchResult)) (t : string -> string)
    (network network' : Request -> settled (Response Json)) (st : State) :
  (forall st',
      formData st' = formData st -> reportType st' = reportType st ->
      fst (run network' (handleSubmit base eps response_matches t st'))
      = fst (run network (handleSubmit base eps response_matches t st)))
  /\ (error (snd (run network (handleSubmit base eps response_matches t st))) <> None ->
      fst (run network'
             (handleSubmit base eps response_matches t
                (snd (run network (handleSubmit base eps response_matches t st)))))
      = fst (run network (handleSubmit base eps response_matches t st))).
Proof.
  assert (A : forall st',
             formData st' = formData st -> reportType st' = reportType st ->
             fst (run network' (handleSubmit base eps response_matches t st'))
             = fst (run network (handleSubmit base eps response_matches t st))).
  { intros st' Hf Ht.
    destruct (form_valid_dec st) as [(image & Hi & Hw & Hn) | Hbad].
    - rewrite (handleSubmit_valid base eps Json response_matches t network
                 st image Hi Hw Hn).
      rewrite <- Hf in Hi, Hw, Hn.
      rewrite (handleSubmit_valid base eps Json response_matches t network'
                 st' image Hi Hw Hn).
      cbn [fst]. rewrite !submit_log.
      unfold submitPayload, isLost. now rewrite Hf, Ht.
    - destruct (handleSubmit_invalid base eps Json response_matches t network
                  st Hbad) as [key ->].
      rewrite <- Hf in Hbad.
      destruct (handleSubmit_invalid base eps Json response_matches t network'
                  st' Hbad) as [key' ->].
      reflexivity. }
  split; [exact A |].
  assert (B : error (snd (run network (handleSubmit base eps response_matches t st)))
              <> None ->
              formData (snd (run network (handleSubmit base eps response_matches t st)))
              = formData st
              /\ reportType (snd (run network
                                    (handleSubmit base eps response_matches t st)))
                 = reportType st).
  { destruct (form_valid_dec st) as [(image & Hi & Hw & Hn) | Hbad].
    - rewrite (handleSubmit_valid base eps Json response_matches t network
                 st image Hi Hw Hn).
      cbn [snd].
      destruct (await (snd (run network _)) response_matches); cbn; intros H;
        [now elim H | split; reflexivity].
    - destruct (handleSubmit_invalid base eps Json response_matches t network
                  st Hbad) as [key ->].
      intros _. split; reflexivity. }
  intros Herr. destruct (B Herr) as [Hf Ht]. now apply A.
Qed.

Lemma handleSubmit_resend_witness :
  fst (run Samples.matching
         (handleSubmit Samples.base Samples.endpoints Samples.body_matches
            Samples.translate
            (snd (run Samples.failing
                    (handleSubmit Samples.base Samples.endpoints
                       Samples.body_matches Samples.translate Samples.ready)))))
  = fst (run Samples.failing
           (handleSubmit Samples.base Samples.endpoints Samples.body_matches
              Samples.translate Samples.ready)).
Proof.
  apply (handleSubmit_resend Samples.base Samples.endpoints Samples.Body
           Samples.body_matches Samples.translate Samples.failing
           Samples.matching Samples.ready).
  discriminate.
Defined.
End SubmitFlow.

(** ** What the screens show *)

Module DisplayFacts.
Import JsNumber JsNumberOrder JsArray JsArrayFacts ItemTypes JsString Client.
Import ReportItemScreen ClientFacts.
Local Open Scope string_scope.

Lemma firstn_split_short {A : Type} (n : nat) (l : list A) :
  l = (firstn n l ++ skipn n l)%list
  /\ (List.length (firstn n l) = n \/ skipn n l = []).
Proof.
  split; [symmetry; apply firstn_skipn |].
  destruct (Nat.le_gt_cases n (List.length l)) as [H | H].
  - left. now apply firstn_length_le.
  - right. apply skipn_all2. lia.
Qed.

(** The success modal shows at most two cards; they are the first visible
    results in the order of the response, each the display form of a
    result whose similarity meets the match threshold; and the modal
    announces matches exactly when some result meets the threshold. *)
Theorem modalCards_visible (base : string) (matchThreshold highThreshold : number)
    (t : string -> string) (st : State) :
  let cards := modalCards base matchThreshold highThreshold t st in
  (List.length cards <= 2)%nat
  /\ (exists shown hidden,
        filteredMatches matchThreshold st = (shown ++ hidden)%list
        /\ cards = map (convertToMatch base highThreshold t st) shown
        /\ (List.length shown = 2%nat \/ hidden = []))
  /\ (forall card, In card cards ->
        exists r, In r (matches st)
                  /\ ge (similarity r) matchThreshold = true
                  /\ card = convertToMatch base highThreshold t st r)
  /\ (modalAnnouncesMatches matchThreshold st = true
      <-> exists r, In r (matches st) /\ ge (similarity r) matchThreshold = true).
Proof.
  intros cards. subst cards. unfold modalCards, modalAnnouncesMatches, slice_0.
  unfold filteredMatches. rewrite filter_eq.
  set (visible := List.filter _ (matches st)).
  split; [rewrite length_map; apply firstn_le_length |].
  split.
  { exists (firstn 2 visible), (skipn 2 visible).
    destruct (firstn_split_short 2 visible) as [E H]. auto. }
  split.
  { intros card Hin. apply in_map_iff in Hin as (r & <- & Hr).
    exists r. assert (Hv : In r visible).
    { rewrite <- (firstn_skipn 2 visible). apply in_or_app. now left. }
    apply filter_In in Hv as [Hm Hge]. auto. }
  rewrite Nat.ltb_lt. split.
  - intros Hlen. destruct visible as [| r rest] eqn:E; [cbn in Hlen; lia |].
    assert (Hv : In r visible) by (rewrite E; now left).
    apply filter_In in Hv as [Hm Hge]. eauto.
  - intros (r & Hm & Hge).
    assert (Hv : In r visible) by (apply filter_In; auto).
    destruct visible; [destruct Hv | cbn; lia].
Qed.

(** When the high threshold is not below the match threshold, every
    result that is tagged [high] is among the visible ones (all Numbers
    finite). *)
Theorem high_is_visible (base : string) (matchThreshold highThreshold : number)
    (t : string -> string) (st : State) (r : MatchResult) :
  is_number matchThreshold = true -> isFinite matchThreshold = true ->
  is_number highThreshold = true -> isFinite highThreshold = true ->
  is_number (similarity r) = true -> isFinite (similarity r) = true ->
  ge highThreshold matchThreshold = true ->
  In r (matches st) ->
  status (convertToMatch base highThreshold t st r) = high ->
  In r (filteredMatches matchThreshold st).
Proof.
  intros Nm Fm Nh Fh Nr Fr Hhm Hin Hhigh.
  unfold filteredMatches. rewrite filter_eq. apply filter_In. split; [exact Hin |].
  cbn [convertToMatch status] in Hhigh.
  destruct (ge (similarity r) highThreshold) eqn:Hge; [| discriminate].
  apply ge_to_Q in Hge; [| assumption ..].
  apply ge_to_Q in Hhm; [| assumption ..].
  apply ge_to_Q; [assumption .. |].
  eapply Qle_trans; eassumption.
Qed.

Lemma high_is_visible_witness :
  In Samples.resultA (filteredMatches (decimal 5 1) Samples.shown).
Proof.
  apply (high_is_visible Samples.base (decimal 5 1) (decimal 85 2)
           Samples.translate Samples.shown Samples.resultA);
    try (vm_compute; reflexivity).
  left. reflexivity.
Defined.

Lemma or_else_not_empty (a b : string) : b <> "" -> or_else a b <> "".
Proof.
  intros Hb. unfold or_else. destruct (truthy a) eqn:E; [| exact Hb].
  now apply truthy_true.
Qed.

Lemma opt_or_else_not_empty (a : option string) (b : string) :
  b <> "" -> opt_or_else a b <> "".
Proof. intros Hb. destruct a; [now apply or_else_not_empty | exact Hb]. Qed.

(** A displayed match never has an empty location or time (the text
    [Unknown] stands in), never an empty specific place (it is left out
    instead), and no empty description as long as the translation of
    [no_description] is not empty; its item is of the other kind than
    the report, carries the id of the match, and its image URL is the
    built one. *)
Theorem convertToMatch_display (base : string) (highThreshold : number)
    (t : string -> string) (st : State) (r : MatchResult) :
  let m := convertToMatch base highThreshold t st r in
  where_ (match_item m) <> ""
  /\ when_ (match_item m) <> ""
  /\ specificPlace (match_item m) <> Some ""
  /\ (t "no_description" <> "" -> description_ (match_item m) <> "")
  /\ (item_type (match_item m) = lost <-> reportType st = found)
  /\ item_id (match_item m) = match_id m
  /\ imageUrl (match_item m) = buildImageUrl base (image_url (item r))
  /\ (location_type (item r) <> "" -> where_ (match_item m) = location_type (item r))
  /\ (forall d, item_description (item r) = Some d -> d <> "" ->
      description_ (match_item m) = d).
Proof.
  cbn [convertToMatch match_item where_ when_ specificPlace description_
       item_type item_id match_id imageUrl].
  split; [apply or_else_not_empty; discriminate |].
  split; [apply or_else_not_empty; discriminate |].
  split.
  { destruct (location_detail (item r)) as [d |]; cbn [opt_or_undefined];
      [| discriminate].
    unfold or_undefined. destruct (truthy d) eqn:E; [| discriminate].
    apply truthy_true in E. congruence. }
  split; [intros Ht; now apply opt_or_else_not_empty, opt_or_else_not_empty |].
  split; [unfold isLost; destruct (reportType st); split; congruence |].
  split; [reflexivity |]. split; [reflexivity |].
  split.
  - intros H. unfold or_else. apply truthy_true in H. now rewrite H.
  - intros d -> Hd. cbn [opt_or_else]. unfold or_else.
    apply truthy_true in Hd. now rewrite Hd.
Qed.

(** The progress row: the count of completed steps is 0, 1 or 2, and 2
    exactly for a valid form; the dot of the submit step and the line
    after the details step are never coloured; the first line and the
    details dot are coloured exactly for a valid form; the photo dot is
    coloured as soon as one of the two steps is complete, be it the
    details. *)
Theorem progress_steps (st : State) :
  (0 <= progress st <= 2)%Z
  /\ (progress st = 2%Z <-> isFormValid st = true)
  /\ progressDotActive st 2 = false
  /\ progressLineActive st 1 = false
  /\ (progressLineActive st 0 = true <-> isFormValid st = true)
  /\ (progressDotActive st 1 = true <-> isFormValid st = true)
  /\ (progressDotActive st 0 = true
      <-> form_image (formData st) <> None
          \/ (form_where (formData st) <> "" /\ form_when (formData st) <> "")).
Proof.
  unfold progressDotActive, progressLineActive, progress, isFormValid.
  cbn [fold_left].
  rewrite <- !truthy_true.
  destruct (form_image (formData st)) as [image |];
    destruct (truthy (form_where (formData st)));
    destruct (truthy (form_when (formData st))); cbn;
    repeat split; try lia; try discriminate; try tauto; try congruence;
    try (intros [H | [H1 H2]]; congruence); try (left; discriminate).
Qed.

(** Visibility and the [high] tag are monotone in the similarity (all
    Numbers finite): a result whose similarity is at least that of a
    visible result is visible, and at least that of a [high] one is
    [high]. *)
Theorem classification_monotone (base : string) (matchThreshold highThreshold : number)
    (t : string -> string) (st : State) (r1 r2 : MatchResult) :
  is_number matchThreshold = true -> isFinite matchThreshold = true ->
  is_number highThreshold = true -> isFinite highThreshold = true ->
  is_number (similarity r1) = true -> isFinite (similarity r1) = true ->
  is_number (similarity r2) = true -> isFinite (similarity r2) = true ->
  ge (similarity r1) (similarity r2) = true ->
  In r1 (matches st) ->
  (In r2 (filteredMatches matchThreshold st) -> In r1 (filteredMatches matchThreshold st))
  /\ (status (convertToMatch base highThreshold t st r2) = high ->
      status (convertToMatch base highThreshold t st r1) = high).
Proof.
  intros Nm Fm Nh Fh N1 F1 N2 F2 H12 Hin.
  apply ge_to_Q in H12; [| assumption ..].
  unfold filteredMatches. rewrite filter_eq. split.
  - intros H2. apply filter_In in H2 as [_ H2]. apply filter_In. split; [exact Hin |].
    apply ge_to_Q in H2; [| assumption ..].
    apply ge_to_Q; [assumption .. |]. eapply Qle_trans; eassumption.
  - cbn [convertToMatch status].
    destruct (ge (similarity r2) highThreshold) eqn:H2; [| discriminate].
    intros _. apply ge_to_Q in H2; [| assumption ..].
    assert (H1 : ge (similarity r1) highThreshold = true)
      by (apply ge_to_Q; [assumption .. |]; eapply Qle_trans; eassumption).
    now rewrite H1.
Qed.

Lemma classification_monotone_witness :
  (In Samples.resultB (filteredMatches (decimal 5 1) Samples.shown) ->
   In Samples.resultA (filteredMatches (decimal 5 1) Samples.shown))
  /\ (status (convertToMatch Samples.base (decimal 85 2) Samples.translate
                Samples.shown Samples.resultB) = high ->
      status (convertToMatch Samples.base (decimal 85 2) Samples.translate
                Samples.shown Samples.resultA) = high).
Proof.
  apply (classification_monotone Samples.base (decimal 5 1) (decimal 85 2)
           Samples.translate Samples.shown Samples.resultA Samples.resultB);
    try (vm_compute; reflexivity).
  left. reflexivity.
Defined.

Lemma modalCards_visible_witness :
  exists r, In r (matches Samples.shown)
            /\ ge (similarity r) (decimal 5 1) = true
            /\ convertToMatch Samples.base (decimal 85 2) Samples.translate
                 Samples.shown Samples.resultA
               = convertToMatch Samples.base (decimal 85 2)
                   Samples.translate Samples.shown r.
Proof.
  apply (modalCards_visible Samples.base (decimal 5 1) (decimal 85 2)
           Samples.translate Samples.shown).
  left. reflexivity.
Defined.

Lemma convertToMatch_display_witness :
  description_
    (match_item (convertToMatch Samples.base (decimal 85 2) Samples.translate
                   Samples.shown Samples.resultA)) <> "".
Proof.
  apply (convertToMatch_display Samples.base (decimal 85 2) Samples.translate
           Samples.shown Samples.resultA). discriminate.
Defined.

End DisplayFacts.

(** ** The item card and the settings screen *)

Module CardAndSettingsFacts.
Import JsNumber JsArray JsArrayFacts ItemTypes Async JsString Client.
Import ClientFacts ScreenFacts DisplayFacts.
Local Open Scope string_scope.

(** The card lists at most three matches, the first ones; [View all] is
    offered exactly when some match is not listed; the count badge is
    absent exactly when there is no match; and a listed match that
    lights the high-match indicator lights it on the card. *)
Theorem itemCard_listing (t : string -> string) (matches : list Match) :
  (List.length (ItemCard.listedMatches matches) <= 3)%nat
  /\ (exists rest,
        matches = (ItemCard.listedMatches matches ++ rest)%list
        /\ (ItemCard.showsViewAll matches = true <-> rest <> []))
  /\ (ItemCard.matchCountBadge t matches = None <-> matches = [])
  /\ (ItemCard.hasHighMatch (ItemCard.listedMatches matches) = true ->
      ItemCard.hasHighMatch matches = true).
Proof.
  unfold ItemCard.listedMatches, ItemCard.showsViewAll, ItemCard.matchCountBadge,
    ItemCard.hasHighMatch, slice_0.
  split; [apply firstn_le_length |].
  split.
  { exists (skipn 3 matches). split; [symmetry; apply firstn_skipn |].
    rewrite Nat.ltb_lt. split.
    - intros H E. apply (f_equal (@List.length Match)) in E.
      rewrite length_skipn in E. cbn [List.length] in E. lia.
    - intros H. destruct (Nat.le_gt_cases (List.length matches) 3) as [L | L];
        [| exact L].
      elim H. now apply skipn_all2. }
  split.
  { destruct matches as [| m rest]; cbn [List.length Nat.ltb Nat.leb];
      split; congruence. }
  rewrite !some_exists. intros (m & Hin & Hge). exists m. split; [| exact Hge].
  rewrite <- (firstn_skipn 3 matches). apply in_or_app. now left.
Qed.

Section Reset.

Variable base : string.
Variable eps : EndpointMap.
Variable Json : Type.
Variable t : string -> string.
Variable storage_cleared : settled unit.
Variable queries_invalidated : settled unit.
Variable network : Request -> settled (Response Json).

Let reset : settled Json := snd (run network (resetDatabase base eps Json)).
Let asked := SettingsScreen.Alert_alert (t "settings_reset_title")
               (t "settings_reset_confirm").
Let failed := SettingsScreen.Alert_alert (t "error") (t "settings_reset_error").
Let succeeded := SettingsScreen.Alert_alert (t "success") (t "settings_reset_success").
Let fulfilled {A : Type} (p : settled A) : Prop := exists v, p = Fulfilled v.

(** Resetting the data.  Cancelling the confirmation issues no request
    and clears nothing.  Confirming issues the one DELETE; the local
    storage is cleared exactly when the backend reset was fulfilled, the
    queries are invalidated exactly when the storage was cleared as well,
    and the last thing shown is the success alert when all three were
    fulfilled and otherwise the one error alert, whatever failed. *)
Theorem handleResetData_flow :
  let cancelled :=
    run network (SettingsScreen.handleResetData base eps Json t storage_cleared
                   queries_invalidated SettingsScreen.cancel) in
  let confirmed :=
    run network (SettingsScreen.handleResetData base eps Json t storage_cleared
                   queries_invalidated SettingsScreen.confirm) in
  cancelled = ([], [asked])
  /\ fst confirmed
     = [{| url := base ++ RESET eps; method := DELETE; body := None; headers := [] |}]
  /\ (In SettingsScreen.AsyncStorage_clear (snd confirmed) <-> fulfilled reset)
  /\ (In SettingsScreen.invalidateQueries (snd confirmed)
      <-> fulfilled reset /\ fulfilled storage_cleared)
  /\ (fulfilled reset /\ fulfilled storage_cleared /\ fulfilled queries_invalidated ->
      last (snd confirmed) asked = succeeded)
  /\ (~ (fulfilled reset /\ fulfilled storage_cleared /\ fulfilled queries_invalidated) ->
      last (snd confirmed) asked = failed).
Proof.
  intros cancelled confirmed.
  split; [reflexivity |].
  subst confirmed. unfold SettingsScreen.handleResetData, SettingsScreen.resetConfirmed.
  rewrite !run_bind. cbn [fst snd run]. fold reset.
  split; [unfold resetDatabase; cbn [run fst]; now rewrite app_nil_r |].
  assert (Fy : forall (A : Type) (v : A), fulfilled (Fulfilled v))
    by (intros A v; exists v; reflexivity).
  assert (Fn : forall (A : Type) (e : thrown), ~ fulfilled (@Rejected A e))
    by (intros A e [v H]; discriminate H).
  unfold asked, failed, succeeded.
  destruct reset as [data | e];
    [destruct storage_cleared as [[] | e1];
     [destruct queries_invalidated as [[] | e2] |] |];
    cbn [In last app];
    repeat match goal with
           | |- _ /\ _ => split
           | |- _ <-> _ => split
           | |- _ -> _ => intro
           end;
    repeat match goal with
           | H : _ /\ _ |- _ => destruct H
           | H : _ \/ _ |- _ => destruct H
           | H : fulfilled (Rejected _) |- _ => elim (Fn _ _ H)
           | H : SettingsScreen.Alert_alert _ _ = _ |- _ => discriminate H
           | H : SettingsScreen.AsyncStorage_clear = _ |- _ => discriminate H
           | H : SettingsScreen.invalidateQueries = _ |- _ => discriminate H
           | H : False |- _ => destruct H
           end;
    try reflexivity; try apply Fy; auto;
    try (match goal with H : ~ _ |- _ => elim H; repeat split; apply Fy end).
Qed.

End Reset.

Lemma itemCard_listing_witness :
  ItemCard.hasHighMatch
    [ReportItemScreen.convertToMatch Samples.base (decimal 85 2)
       Samples.translate Samples.shown Samples.resultA] = true.
Proof.
  apply (itemCard_listing Samples.translate
           [ReportItemScreen.convertToMatch Samples.base (decimal 85 2)
              Samples.translate Samples.shown Samples.resultA]).
  vm_compute. reflexivity.
Defined.

Lemma handleResetData_flow_witness :
  last (snd (run Samples.failing
               (SettingsScreen.handleResetData Samples.base Samples.endpoints
                  Samples.Body Samples.translate (Fulfilled tt) (Fulfilled tt)
                  SettingsScreen.confirm)))
    (SettingsScreen.Alert_alert "settings_reset_title" "settings_reset_confirm")
  = SettingsScreen.Alert_alert "error" "settings_reset_error".
Proof.
  apply (handleResetData_flow Samples.base Samples.endpoints Samples.Body
           Samples.translate (Fulfilled tt) (Fulfilled tt) Samples.failing).
  intros [[v H] _]. discriminate H.
Defined.

End CardAndSettingsFacts.

(** ** The range of the displayed percentage *)

Module PercentageFacts.
Import JsNumber JsNumberFacts JsNumberOrder JsArray JsArrayFacts ItemTypes.
Import ReportItemScreen.
Local Open Scope Z_scope.

(** [shr_fexp] divides the mantissa by the power of two that it adds to the
    exponent. *)
Lemma shr_fexp_exact (m e : Z) (l : location) :
  0 <= m ->
  e <= snd (shr_fexp prec emax m e l)
  /\ shr_m (fst (shr_fexp prec emax m e l))
     = m / 2 ^ (snd (shr_fexp prec emax m e l) - e).
Proof.
  intros Hm. unfold shr_fexp, shr.
  destruct (fexp prec emax (Zdigits2 m + e) - e) as [| k | k]; cbn [fst snd].
  - rewrite shr_record_of_loc_m, Z.sub_diag, Z.pow_0_r, Z.div_1_r. lia.
  - rewrite iter_shr_1_m by (rewrite shr_record_of_loc_m; lia).
    rewrite shr_record_of_loc_m.
    replace (e + Z.pos k - e) with (Z.pos k) by lia. lia.
  - rewrite shr_record_of_loc_m, Z.sub_diag, Z.pow_0_r, Z.div_1_r. lia.
Qed.

(** Rounding a mantissa whose value is below [bound], a multiple of the
    unit in the last place, gives a value that is at most [bound]. *)
Lemma binary_round_aux_below (sx : bool) (m e bound : Z) (l : location)
    (m' : positive) (e' : Z) :
  0 <= m -> 0 <= bound ->
  fexp prec emax (Zdigits2 m + e) <= 0 -> e <= 0 ->
  m < bound * 2 ^ (- e) ->
  binary_round_aux prec emax sx m e l = S754_finite sx m' e' ->
  (inject_Z (Zpos m') * 2 ^ e' <= inject_Z bound)%Q.
Proof.
  intros Hm Hb Hf He Hlt. unfold binary_round_aux.
  pose proof (shr_fexp_exact m e l Hm) as [L1 M1].
  pose proof (shr_fexp_bounds m e l Hm) as [B1 E1].
  destruct (shr_fexp prec emax m e l) as [mrs1 e1]. cbn [fst snd] in *.
  set (m2 := round_nearest_even (shr_m mrs1) (loc_of_shr_record mrs1)).
  pose proof (round_nearest_even_bounds (shr_m mrs1) (loc_of_shr_record mrs1)
                (proj1 B1)) as B2. fold m2 in B2.
  pose proof (shr_fexp_exact m2 e1 loc_Exact (proj1 B2)) as [L2 M2].
  destruct (shr_fexp prec emax m2 e1 loc_Exact) as [mrs2 e2]. cbn [fst snd] in *.
  destruct (shr_m mrs2) as [| p | p] eqn:Em; try discriminate.
  destruct (e2 <=? emax - prec); [| discriminate].
  intros [= <- <-].
  assert (He1 : e1 <= 0) by lia.
  assert (P1 : 0 < 2 ^ (e1 - e)) by (apply Z.pow_pos_nonneg; lia).
  assert (P2 : 0 < 2 ^ (e2 - e1)) by (apply Z.pow_pos_nonneg; lia).
  assert (S1 : 2 ^ (- e) = 2 ^ (- e1) * 2 ^ (e1 - e)).
  { rewrite <- Z.pow_add_r by lia. f_equal. lia. }
  assert (H1 : shr_m mrs1 < bound * 2 ^ (- e1)).
  { rewrite M1. apply Z.div_lt_upper_bound; [exact P1 |].
    rewrite S1 in Hlt. lia. }
  assert (H2 : m2 <= bound * 2 ^ (- e1)) by lia.
  assert (H3 : Z.pos p * 2 ^ (e2 - e1) <= m2).
  { rewrite M2. rewrite Z.mul_comm. apply Z.mul_div_le. exact P2. }
  assert (H4 : Z.pos p * 2 ^ (e2 - e1) <= bound * 2 ^ (- e1)) by lia.
  rewrite (pow2_split_Q e1 e2) by lia.
  rewrite Qmult_assoc, <- inject_Z_mult.
  assert (U : (inject_Z (2 ^ (- e1)) * 2 ^ e1 == 1)%Q).
  { rewrite <- (pow2_split_Q e1 0) by lia. reflexivity. }
  setoid_replace (inject_Z bound) with (inject_Z (bound * 2 ^ (- e1)) * 2 ^ e1)%Q.
  - apply Qmult_le_r; [apply pow2_pos_Q |]. rewrite <- Zle_Qle. exact H4.
  - rewrite inject_Z_mult, <- Qmult_assoc, U. ring.
Qed.

Lemma scaled_product_lt (a b c : Z) : a < b -> 0 < c -> a * (100 * c) < 100 * (b * c).
Proof. intros. nia. Qed.

Lemma hundred_mantissa_eq : Z.pos hundred_mantissa = 100 * 2 ^ 46.
Proof. vm_compute. reflexivity. Qed.

Lemma one_mantissa_eq : Z.pos one_mantissa = 2 ^ 52.
Proof. vm_compute. reflexivity. Qed.

Lemma mul_1_100 :
  mul (S754_finite false one_mantissa (-52)) (S754_finite false hundred_mantissa (-46))
  = S754_finite false hundred_mantissa (-46).
Proof. vm_compute. reflexivity. Qed.

Lemma to_Q_100 : (to_Q (S754_finite false hundred_mantissa (-46)) == 100)%Q.
Proof. vm_compute. reflexivity. Qed.

(** A similarity times 100 is at most 100. *)
Lemma mul_100_below (s : number) (m : positive) (e : Z) :
  is_number s = true -> in_unit s = true ->
  mul s (of_Z 100) = S754_finite false m e ->
  (0 <= to_Q (S754_finite false m e) <= 100)%Q.
Proof.
  intros Hn Hu Hmul.
  split; [apply Qlt_le_weak, positive_value |].
  revert Hmul. rewrite of_Z_100.
  destruct (in_unit_inv s Hu) as [[sg ->] | (ms & es & -> & He)];
    [discriminate |].
  apply is_number_mantissa in Hn as [Hm _].
  assert (Hcases : (es = -52 /\ ms = one_mantissa) \/ Z.pos ms < 2 ^ (- es)).
  { destruct He as [He | [-> Hle]].
    - right. eapply Z.lt_le_trans; [exact Hm |].
      apply Z.pow_le_mono_r; unfold prec; lia.
    - destruct (Pos.eq_dec ms one_mantissa) as [-> | Hne]; [left; auto |].
      right. change (- -52) with 52. rewrite <- one_mantissa_eq.
      apply Pos2Z.pos_lt_pos. apply Pos.le_lteq in Hle as [H | H];
        [exact H | contradiction]. }
  destruct Hcases as [[-> ->] | Hlt].
  - rewrite mul_1_100. intros [= <- <-]. rewrite to_Q_100. apply Qle_refl.
  - unfold mul. cbn [SFmul xorb]. intros Hmul.
    assert (Hes : es <= -52) by (destruct He as [He | [-> _]]; lia).
    clear He.
    cbn [to_Q cond_Zopp].
    apply (binary_round_aux_below false (Z.pos (ms * hundred_mantissa)) (es + -46)
             100 loc_Exact m e); try exact Hmul.
    + apply Pos2Z.is_nonneg.
    + lia.
    + assert (D : Zdigits2 (Z.pos (ms * hundred_mantissa)) <= 106).
      { apply Zdigits2_le; [apply Pos2Z.is_nonneg | lia |].
        rewrite Pos2Z.inj_mul.
        pose proof (mantissa_product_bound (Z.pos ms) (Z.pos hundred_mantissa)) as B.
        assert (2 ^ 106 < 2 ^ 107) by (apply Z.pow_lt_mono_r; lia).
        assert (B' : Z.pos ms * Z.pos hundred_mantissa + 1 < 2 ^ 107).
        { apply B; [exact Hm | vm_compute; reflexivity
                   | apply Pos2Z.is_pos | apply Pos2Z.is_pos]. }
        clear - B' Hm. 
        assert (E : 2 ^ 107 = 2 * 2 ^ 106) by (vm_compute; reflexivity).
        assert (Q : Z.pos ms * Z.pos hundred_mantissa < 2 ^ prec * 2 ^ prec).
        { assert (Z.pos hundred_mantissa < 2 ^ prec) by (vm_compute; reflexivity).
          assert (0 < Z.pos ms) by apply Pos2Z.is_pos.
          assert (0 < Z.pos hundred_mantissa) by apply Pos2Z.is_pos.
          generalize dependent (Z.pos hundred_mantissa).
          generalize dependent (Z.pos ms). generalize (2 ^ prec).
          intros P a Ha _ b Hb Ha0 Hb0. nia. }
        replace (2 ^ 106) with (2 ^ prec * 2 ^ prec) by (vm_compute; reflexivity).
        exact Q. }
      unfold fexp, emin, prec, emax. clear - D Hes. lia.
    + lia.
    + rewrite Pos2Z.inj_mul, hundred_mantissa_eq.
      replace (- (es + -46)) with (- es + 46) by lia.
      rewrite Z.pow_add_r by lia.
      apply scaled_product_lt; [exact Hlt | apply Z.pow_pos_nonneg; lia].
Qed.

Lemma ge_of_Z_75 (n : Z) : 0 <= n <= 100 -> ge (of_Z n) (of_Z 75) = (75 <=? n).
Proof.
  intros Hn.
  assert (H : forallb (fun k => Bool.eqb (ge (of_Z (Z.of_nat k)) (of_Z 75))
                                  (75 <=? Z.of_nat k)) (seq 0 101) = true)
    by (vm_compute; reflexivity).
  rewrite forallb_forall in H.
  specialize (H (Z.to_nat n)). rewrite Z2Nat.id in H by lia.
  apply eqb_prop, H. apply in_seq. lia.
Qed.

Lemma half_up_in_range (v : Q) :
  (0 <= v <= 100)%Q -> 0 <= Qfloor (v + (1 # 2)) <= 100.
Proof.
  intros [H0 H100]. split.
  - change 0 with (Qfloor (0 + (1 # 2))). apply Qfloor_resp_le.
    apply Qplus_le_l. exact H0.
  - change 100 with (Qfloor (100 + (1 # 2))). apply Qfloor_resp_le.
    apply Qplus_le_l. exact H100.
Qed.

(** For a similarity in [0, 1] the displayed percentage is a whole number
    between 0 and 100, and a card with this one match lights its
    high-match indicator exactly when that number is at least 75. *)
Theorem percentage_in_range (base : string) (h : number) (t : string -> string)
    (st : State) (r : MatchResult) :
  is_number (similarity r) = true -> in_unit (similarity r) = true ->
  exists n : Z,
    0 <= n <= 100
    /\ n = Qfloor (to_Q (mul (similarity r) (of_Z 100)) + (1 # 2))
    /\ strict_equal (match_similarity (convertToMatch base h t st r)) (of_Z n) = true
    /\ (ItemCard.hasHighMatch [convertToMatch base h t st r] = true <-> 75 <= n).
Proof.
  intros Hn Hu.
  cbn [convertToMatch match_similarity ItemCard.hasHighMatch some].
  destruct (mul_100_finite (similarity r) Hn Hu) as [[sg E] | (p & e & E)].
  - rewrite E. cbn [Math_round to_Q]. exists 0.
    split; [lia |]. split; [reflexivity |].
    split; [destruct sg; reflexivity |].
    destruct sg; cbn; split; [discriminate | lia | discriminate | lia].
  - pose proof (mul_100_below (similarity r) p e Hn Hu E) as Hv.
    rewrite E. cbn [Math_round].
    pose proof (round_to_Z_half_up false p e) as Hr.
    pose proof (half_up_in_range _ Hv) as Hrange. rewrite <- Hr in Hrange.
    exists (round_to_Z false p e).
    split; [exact Hrange |]. split; [exact Hr |].
    split; [apply SFeqb_refl, binary_normalize_not_nan |].
    change (binary_normalize prec emax (round_to_Z false p e) 0 false)
      with (of_Z (round_to_Z false p e)).
    rewrite (ge_of_Z_75 _ Hrange).
    destruct (Z.leb_spec 75 (round_to_Z false p e)); split;
      intros; try reflexivity; try lia; discriminate.
Qed.

Lemma percentage_in_range_witness :
  exists n : Z,
    0 <= n <= 100
    /\ n = Qfloor (to_Q (mul (similarity Samples.resultA) (of_Z 100)) + (1 # 2))
    /\ strict_equal
         (match_similarity
            (convertToMatch Samples.base (decimal 85 2) Samples.translate
               Samples.shown Samples.resultA)) (of_Z n) = true
    /\ (ItemCard.hasHighMatch
          [convertToMatch Samples.base (decimal 85 2) Samples.translate
             Samples.shown Samples.resultA] = true <-> 75 <= n).
Proof.
  apply (percentage_in_range Samples.base (decimal 85 2) Samples.translate
           Samples.shown Samples.resultA); vm_compute; reflexivity.
Defined.
End PercentageFacts.
